(** * Multi-provider translation with ordered fallback (script.js)

    A shallow embedding of the translation core of [script.js]: the three
    provider adapters ([translateWithLingva], [translateWithMyMemory],
    [translateWithLibreTranslate]) and the fallback orchestrator
    [translateText], followed by the properties established about them.

    Modelling conventions.
    - JavaScript values are the inductive type [value]; JavaScript strings are
      held in [string] by their generalised UTF-8 encoding: a character by the
      bytes of its UTF-8 encoding (a surrogate pair by the four bytes of the
      character it denotes), and a surrogate code unit that is not part of a
      pair, U+D800 to U+DFFF, by the three bytes ED, A0..BF, 80..BF that the
      same scheme gives it.  Every JavaScript string has exactly one such
      encoding.
    - Asynchronous code runs in the monad [M]: a computation takes the machine
      state (network, clock in milliseconds, requests sent) and yields an
      outcome (a returned value or a thrown error), the next state and the
      events it emitted.  [await] is sequencing; the clock advances by the
      latency of what is awaited.
    - The network is a parameter: a state type [W] and a function [net]
      giving, for a request, the provider's reply and the next network
      state. *)

From Stdlib Require Import String Ascii List NArith ZArith Bool Lia.
From Stdlib Require Import Floats.SpecFloat DecimalString.
Import ListNotations.
Local Open Scope string_scope.
Local Open Scope N_scope.

Set Implicit Arguments.
Set Warnings "-register-all".

(* ===================================================================== *)
(** ** JavaScript values and errors *)
(* ===================================================================== *)

(** An error object: its [name] ("Error", "TypeError", ...) and [message]. *)
Record exn := mkExn { ename : string; message : string }.

Definition Error (msg : string) : exn := mkExn "Error" msg.
Definition TypeError (msg : string) : exn := mkExn "TypeError" msg.
Definition SyntaxError (msg : string) : exn := mkExn "SyntaxError" msg.
Definition URIError (msg : string) : exn := mkExn "URIError" msg.

(** The result of evaluating an expression or settling a promise. *)
Inductive outcome (A : Type) : Type :=
| Return (a : A)
| Throw (e : exn).
Arguments Return {A} a.
Arguments Throw {A} e.

Definition is_return {A} (o : outcome A) : bool :=
  match o with Return _ => true | Throw _ => false end.

Definition is_throw {A} (o : outcome A) : bool := negb (is_return o).

(** Values: what [JSON.parse] produces, [undefined], and the two kinds of
    built-in object reachable from a plain object through its prototype:
    the functions of [Object.prototype] (of which only the [name] matters
    here) and [Object.prototype] itself. *)
Inductive value : Type :=
| VUndefined
| VNull
| VBool (b : bool)
| VNumber (x : spec_float)
| VString (s : string)
| VArray (xs : list value)
| VObject (props : list (string * value))
| VFunction (fname : string)
| VObjectPrototype.

(** Own-property lookup in an object's property list. *)
Fixpoint assoc {A} (key : string) (props : list (string * A)) : option A :=
  match props with
  | [] => None
  | (k, v) :: rest => if String.eqb k key then Some v else assoc key rest
  end.

(** The properties of [Object.prototype] in a browser (ECMAScript 20.1.3 and
    Annex B.2.2), apart from the accessor [__proto__]. *)
Definition Object_prototype : list (string * value) :=
  [ ("constructor", VFunction "Object");
    ("hasOwnProperty", VFunction "hasOwnProperty");
    ("isPrototypeOf", VFunction "isPrototypeOf");
    ("propertyIsEnumerable", VFunction "propertyIsEnumerable");
    ("toLocaleString", VFunction "toLocaleString");
    ("toString", VFunction "toString");
    ("valueOf", VFunction "valueOf");
    ("__defineGetter__", VFunction "__defineGetter__");
    ("__defineSetter__", VFunction "__defineSetter__");
    ("__lookupGetter__", VFunction "__lookupGetter__");
    ("__lookupSetter__", VFunction "__lookupSetter__") ].

(** What a plain object inherits under [key]. *)
Definition inherited (key : string) : value :=
  if String.eqb key "__proto__" then VObjectPrototype
  else match assoc key Object_prototype with
       | Some f => f
       | None => VUndefined
       end.

(** Property read [v.key] / [v[key]].  Exact for every key on plain objects
    and on [Object.prototype]; on the other values it is exact for the keys
    this program reads off them ([name], [code], [translation],
    [responseData], [translatedText]), none of which is defined by the
    prototypes of strings, numbers, booleans, arrays or functions other than
    a function's own [name]. *)
Definition get_prop (v : value) (key : string) : outcome value :=
  match v with
  | VUndefined =>
      Throw (TypeError ("Cannot read properties of undefined (reading '" ++ key ++ "')"))
  | VNull =>
      Throw (TypeError ("Cannot read properties of null (reading '" ++ key ++ "')"))
  | VObject props =>
      Return (match assoc key props with
              | Some x => x
              | None => inherited key
              end)
  | VObjectPrototype =>
      Return (if String.eqb key "__proto__" then VNull
              else match assoc key Object_prototype with
                   | Some f => f
                   | None => VUndefined
                   end)
  | VFunction fname =>
      Return (if String.eqb key "name" then VString fname else VUndefined)
  | VBool _ | VNumber _ | VString _ | VArray _ => Return VUndefined
  end.

(** [ToBoolean]: the values for which [!v] is [false]. *)
Definition truthy (v : value) : bool :=
  match v with
  | VUndefined | VNull => false
  | VBool b => b
  | VNumber (S754_zero _) | VNumber S754_nan => false
  | VNumber _ => true
  | VString s => negb (String.eqb s "")
  | VArray _ | VObject _ | VFunction _ | VObjectPrototype => true
  end.

(** [v === undefined || v === null], the test of the [?.] operator. *)
Definition nullish (v : value) : bool :=
  match v with
  | VUndefined | VNull => true
  | _ => false
  end.

(** Interpolation [`${v}`] in a template literal, for the values the program
    interpolates: a string stands for itself and [undefined] prints as
    "undefined".  ([null], booleans and built-ins are given their standard
    texts; numbers, arrays and JSON objects are never interpolated by this
    program and are given the text of a plain object.) *)
Definition template (v : value) : string :=
  match v with
  | VString s => s
  | VUndefined => "undefined"
  | VNull => "null"
  | VBool true => "true"
  | VBool false => "false"
  | VFunction fname => "function " ++ fname ++ "() { [native code] }"
  | VNumber _ | VArray _ | VObject _ | VObjectPrototype => "[object Object]"
  end.

(* ===================================================================== *)
(** ** Configuration *)
(* ===================================================================== *)

Record Api := { name : string; endpoint : string; type : string }.

Module CONFIG.

Definition APIS : list Api :=
  [ {| name := "Lingva Translate";
       endpoint := "https://lingva.ml/api/v1";
       type := "lingva" |};
    {| name := "MyMemory";
       endpoint := "https://api.mymemory.translated.net/get";
       type := "mymemory" |};
    {| name := "LibreTranslate";
       endpoint := "https://libretranslate.com/translate";
       type := "libretranslate" |} ].

Definition language (nm : string) (rtl : bool) (code : string) : value :=
  VObject [("name", VString nm); ("rtl", VBool rtl); ("code", VString code)].

Definition LANGUAGES : value :=
  VObject [ ("en", language "English" false "en");
            ("ur", language "Urdu" true "ur");
            ("hi", language "Hindi" false "hi");
            ("fr", language "French" false "fr") ].

Definition MIN_CHARS : N := 1.
Definition MAX_CHARS : N := 5000.

End CONFIG.

(** [CONFIG.APIS[i]]; the out-of-range read is [undefined], and reading a
    property of it throws. *)
Definition APIS_at (i : nat) : outcome Api :=
  match nth_error CONFIG.APIS i with
  | Some api => Return api
  | None => Throw (TypeError "Cannot read properties of undefined (reading 'name')")
  end.

(** The four supported language codes. *)
Definition supported (targetLang : string) : bool :=
  existsb (String.eqb targetLang) ["en"; "ur"; "hi"; "fr"].

(* ===================================================================== *)
(** ** [encodeURIComponent] *)
(* ===================================================================== *)

(** The unreserved set: letters, digits and [- _ . ! ~ * ' ( )]. *)
Definition uriUnreserved (c : ascii) : bool :=
  let n := N_of_ascii c in
  ((65 <=? n) && (n <=? 90)) || ((97 <=? n) && (n <=? 122))
  || ((48 <=? n) && (n <=? 57))
  || existsb (N.eqb n) [45; 95; 46; 33; 126; 42; 39; 40; 41].

Definition hex_digit (n : N) : ascii :=
  ascii_of_N (if n <? 10 then 48 + n else 55 + n).

(** Does the text hold a surrogate code unit that is not part of a pair?
    In the encoding of a text the byte ED only starts a character, and the
    byte after it is in A0..BF exactly when that character is such a code
    unit. *)
Fixpoint lone_surrogate (s : string) : bool :=
  match s with
  | EmptyString => false
  | String c rest =>
      match rest with
      | EmptyString => false
      | String c' _ =>
          ((N_of_ascii c =? 237) && (160 <=? N_of_ascii c') && (N_of_ascii c' <=? 191))
          || lone_surrogate rest
      end
  end.

(** The abstract operation [Encode] (ECMAScript 19.2.6.5) on a text without
    lone surrogates: every byte of the UTF-8 encoding outside the unreserved
    set becomes [%XX]. *)
Fixpoint Encode (s : string) : string :=
  match s with
  | EmptyString => EmptyString
  | String c rest =>
      if uriUnreserved c then String c (Encode rest)
      else let n := N_of_ascii c in
           String "%" (String (hex_digit (n / 16))
                      (String (hex_digit (n mod 16)) (Encode rest)))
  end.

(** [encodeURIComponent(s)]: a [URIError] on a text that holds a lone
    surrogate, the encoded text otherwise. *)
Definition encodeURIComponent (s : string) : outcome string :=
  if lone_surrogate s then Throw (URIError "URI malformed")
  else Return (Encode s).

Definition decimal (n : N) : string := NilZero.string_of_uint (N.to_uint n).

(* ===================================================================== *)
(** ** Requests, replies and events *)
(* ===================================================================== *)

(** The arguments of one [fetch] call.  [body_json] is the value whose
    [JSON.stringify] text is sent as the body; [signal] is the
    [AbortController] (named by the index of the attempt that created it)
    whose signal was handed to [fetch], if any. *)
Record request := {
  method : string;
  url : string;
  headers : list (string * string);
  body_json : option value;
  signal : option nat
}.

(** A [Response]: its status, and what [response.json()] settles to after
    [json_delay] more milliseconds (a rejection when the body cannot be read
    or is not JSON). *)
Record Response := {
  status : N;
  json_delay : N;
  json : outcome value
}.

(** [response.ok]: the status is in the range 200-299. *)
Definition ok (r : Response) : bool := (200 <=? status r) && (status r <=? 299).

(** What the network does with a request: after [delay] milliseconds the
    [fetch] promise resolves to a response or rejects (transport failure). *)
Record reply := {
  delay : N;
  settled : outcome Response
}.

(** The lines written to the console. *)
Inductive console_line : Type :=
| LogTranslating (language_name : string)
| LogText (text : string)
| LogTrying (k n : nat) (api_name : string)
| LogSuccess (api_used : string)
| WarnFailed (k : nat) (msg : string).

(** Observable events, in program order.  [Invoke i] marks the call
    [apis[i](text, targetLang)]. *)
Inductive event : Type :=
| Console (line : console_line)
| Invoke (i : nat)
| Fetch (r : request)
| Aborted (controller : nat).

(** The indices of the adapters invoked, in order. *)
Fixpoint invocations (ev : list event) : list nat :=
  match ev with
  | [] => []
  | Invoke i :: rest => i :: invocations rest
  | _ :: rest => invocations rest
  end.

(** The requests sent, in order. *)
Fixpoint requests (ev : list event) : list request :=
  match ev with
  | [] => []
  | Fetch r :: rest => r :: requests rest
  | _ :: rest => requests rest
  end.

(** A request that has been sent, with the time at which its [fetch]
    promise settles. *)
Record flight := { sent : request; lands : N }.

(** The result an adapter returns. *)
Record AdapterResult := { translatedText : value; apiUsed : string }.

(** The result [translateText] returns. *)
Record Translation := {
  out_translatedText : value;
  out_apiUsed : string;
  detectedLanguage : value;
  detectedConfidence : value
}.

(** The delay of the timer armed for each attempt, in milliseconds. *)
Definition TIMEOUT : N := 10000.

(** The error thrown in the last iteration when every adapter has failed,
    and the one thrown by the statement after the loop. *)
Definition all_failed : exn :=
  Error "All translation APIs failed. Please try again later.".

Definition fell_through : exn := Error "Translation failed with all APIs".

(** Does the request carry the signal of [controller]? *)
Definition listens (controller : nat) (r : request) : bool :=
  match signal r with
  | Some c => Nat.eqb c controller
  | None => false
  end.

(** [controller.abort()] at time [t]: the requests still running that were
    given this controller's signal are cancelled. *)
Definition abort (controller : nat) (t : N) (fs : list flight) : list flight :=
  filter (fun f => negb (listens controller (sent f) && (t <? lands f))) fs.

Section World.

Variable W : Type.
Variable net : W -> request -> reply * W.

(** When an awaited call settles in the very millisecond the timer fires,
    the order of the two tasks is the event loop's choice. *)
Variable timer_first : W -> bool.

Record state := { world : W; now : N; flights : list flight }.

(** Requests sent and neither settled nor cancelled yet. *)
Definition in_flight (st : state) : list request :=
  map sent (filter (fun f => now st <? lands f) (flights st)).

(* =================================================================== *)
(** ** The monad of asynchronous computations *)
(* =================================================================== *)

Definition M (A : Type) : Type := state -> outcome A * state * list event.

Definition ret {A} (a : A) : M A := fun st => (Return a, st, []).

Definition throw {A} (e : exn) : M A := fun st => (Throw e, st, []).

Definition bind {A B} (m : M A) (k : A -> M B) : M B :=
  fun st =>
    match m st with
    | (Return a, st1, ev1) =>
        match k a st1 with
        | (r, st2, ev2) => (r, st2, (ev1 ++ ev2)%list)
        end
    | (Throw e, st1, ev1) => (Throw e, st1, ev1)
    end.

(** [try { m } catch (error) { handler error }]. *)
Definition try_catch {A} (m : M A) (handler : exn -> M A) : M A :=
  fun st =>
    match m st with
    | (Return a, st1, ev1) => (Return a, st1, ev1)
    | (Throw e, st1, ev1) =>
        match handler e st1 with
        | (r, st2, ev2) => (r, st2, (ev1 ++ ev2)%list)
        end
    end.

(** An expression that may throw. *)
Definition eval {A} (o : outcome A) : M A := fun st => (o, st, []).

Definition emit (e : event) : M unit := fun st => (Return tt, st, [e]).

Definition console_log (line : console_line) : M unit := emit (Console line).
Definition console_warn (line : console_line) : M unit := emit (Console line).

Definition sleep (ms : N) : M unit :=
  fun st => (Return tt,
             {| world := world st; now := now st + ms; flights := flights st |},
             []).

Notation "x <- m ;; k" := (bind m (fun x => k))
  (at level 100, m at next level, right associativity).
Notation "m ;;; k" := (bind m (fun _ => k))
  (at level 100, right associativity).

(** [await fetch(...)]: the request goes out at once; the caller resumes
    when the network settles it. *)
Definition fetch (req : request) : M Response :=
  fun st =>
    let '(rep, w') := net (world st) req in
    (settled rep,
     {| world := w';
        now := now st + delay rep;
        flights := {| sent := req; lands := now st + delay rep |} :: flights st |},
     [Fetch req]).

(** [await response.json()]. *)
Definition response_json (r : Response) : M value :=
  sleep (json_delay r) ;;; eval (json r).

(** Does a call started in [st] and settled in [st1] settle before a timer
    of [ms] milliseconds armed in [st] fires? *)
Definition settles_first (ms : N) (st st1 : state) : bool :=
  let d := now st1 - now st in
  (d <? ms) || ((d =? ms) && negb (timer_first (world st))).

(** [Promise.race] of a call against the timer armed by
    [setTimeout(() => controller.abort(), ms)], whose abort listener
    rejects with "Request timeout".  The call [p] is started; if it
    settles before the timer fires, the race settles with it.  Otherwise
    the timer fires at [now + ms]: [controller.abort()] runs, the race
    rejects, and [p] is left running (what it sent stays sent). *)
Definition race_with_timeout {A} (controller : nat) (ms : N) (p : M A) : M A :=
  fun st =>
    match p st with
    | (r, st1, ev1) =>
        if settles_first ms st st1 then (r, st1, ev1)
        else (Throw (Error "Request timeout"),
              {| world := world st1;
                 now := now st + ms;
                 flights := abort controller (now st + ms) (flights st1) |},
              (ev1 ++ [Aborted controller])%list)
    end.

(* =================================================================== *)
(** ** Provider adapters *)
(* =================================================================== *)

Definition adapter : Type := string -> string -> M AdapterResult.

(** Translate using Lingva API. *)
Definition translateWithLingva : adapter := fun text targetLang =>
  api <- eval (APIS_at 0) ;;
  entry <- eval (get_prop CONFIG.LANGUAGES targetLang) ;;
  targetCode <- eval (get_prop entry "code") ;;
  encoded <- eval (encodeURIComponent text) ;;
  let url := endpoint api ++ "/auto/" ++ template targetCode ++ "/"
             ++ encoded in
  response <- fetch {| method := "GET"; url := url; headers := [];
                       body_json := None; signal := None |} ;;
  if negb (ok response) then throw (Error ("HTTP " ++ decimal (status response)))
  else
    data <- response_json response ;;
    translation <- eval (get_prop data "translation") ;;
    if negb (truthy translation) then throw (Error "No translation in response")
    else ret {| translatedText := translation; apiUsed := name api |}.

(** Translate using MyMemory API. *)
Definition translateWithMyMemory : adapter := fun text targetLang =>
  api <- eval (APIS_at 1) ;;
  entry <- eval (get_prop CONFIG.LANGUAGES targetLang) ;;
  targetCode <- eval (get_prop entry "code") ;;
  encoded <- eval (encodeURIComponent text) ;;
  let url := endpoint api ++ "?q=" ++ encoded
             ++ "&langpair=en|" ++ template targetCode in
  response <- fetch {| method := "GET"; url := url; headers := [];
                       body_json := None; signal := None |} ;;
  if negb (ok response) then throw (Error ("HTTP " ++ decimal (status response)))
  else
    data <- response_json response ;;
    responseData <- eval (get_prop data "responseData") ;;
    translated <- eval (if nullish responseData then Return VUndefined
                        else get_prop responseData "translatedText") ;;
    if negb (truthy translated) then throw (Error "No translation in response")
    else
      responseData' <- eval (get_prop data "responseData") ;;
      translatedText' <- eval (get_prop responseData' "translatedText") ;;
      ret {| translatedText := translatedText'; apiUsed := name api |}.

(** Translate using LibreTranslate API. *)
Definition translateWithLibreTranslate : adapter := fun text targetLang =>
  api <- eval (APIS_at 2) ;;
  entry <- eval (get_prop CONFIG.LANGUAGES targetLang) ;;
  targetCode <- eval (get_prop entry "code") ;;
  response <- fetch {| method := "POST"; url := endpoint api;
                       headers := [("Content-Type", "application/json")];
                       body_json := Some (VObject [ ("q", VString text);
                                                    ("source", VString "en");
                                                    ("target", targetCode);
                                                    ("format", VString "text") ]);
                       signal := None |} ;;
  if negb (ok response) then throw (Error ("HTTP " ++ decimal (status response)))
  else
    data <- response_json response ;;
    translated <- eval (get_prop data "translatedText") ;;
    if negb (truthy translated) then throw (Error "No translation in response")
    else ret {| translatedText := translated; apiUsed := name api |}.

(* =================================================================== *)
(** ** The fallback orchestrator *)
(* =================================================================== *)

Definition apis : list adapter :=
  [ translateWithLingva; translateWithMyMemory; translateWithLibreTranslate ].

(** The body of the [try] block for the adapter at index [i].  The
    controller created by [new AbortController()] is named [i]; it is
    handed to nothing but the timer and the race.  [clearTimeout] on the
    success path disarms a timer that [race_with_timeout] has already
    decided will not fire first. *)
Definition attempt (total i : nat) (api : adapter) (text targetLang : string)
  : M Translation :=
  cfg <- eval (APIS_at i) ;;
  console_log (LogTrying (i + 1) total (name cfg)) ;;;
  let controller := i in
  emit (Invoke i) ;;;
  result <- race_with_timeout controller TIMEOUT (api text targetLang) ;;
  console_log (LogSuccess (apiUsed result)) ;;;
  ret {| out_translatedText := translatedText result;
         out_apiUsed := apiUsed result;
         detectedLanguage := VNull;
         detectedConfidence := VNull |}.

(** The [for] loop, at index [i] with [rest] the adapters from [i] on, and
    the statement after it. *)
Fixpoint translateText_loop (total : nat) (text targetLang : string)
    (i : nat) (rest : list adapter) : M Translation :=
  match rest with
  | [] => throw fell_through
  | api :: rest' =>
      try_catch (attempt total i api text targetLang)
        (fun error =>
           console_warn (WarnFailed (i + 1) (message error)) ;;;
           if Nat.eqb i (total - 1) then throw all_failed
           else translateText_loop total text targetLang (i + 1) rest')
  end.

(** Translate text with multiple API fallback support. *)
Definition translateText (text targetLang : string) : M Translation :=
  entry <- eval (get_prop CONFIG.LANGUAGES targetLang) ;;
  language_name <- eval (get_prop entry "name") ;;
  console_log (LogTranslating (template language_name)) ;;;
  console_log (LogText text) ;;;
  translateText_loop (length apis) text targetLang 0 apis.

(* =================================================================== *)
(** ** Vocabulary of the properties *)
(* =================================================================== *)

Definition outcome_of {A} (run : outcome A * state * list event) : outcome A :=
  fst (fst run).
Definition state_of {A} (run : outcome A * state * list event) : state :=
  snd (fst run).
Definition events_of {A} (run : outcome A * state * list event) : list event :=
  snd run.

(** The adapter's call raced against the orchestrator's timer, as the
    attempt at index [i] runs it. *)
Definition raced (i : nat) (api : adapter) (text targetLang : string)
  : M AdapterResult :=
  race_with_timeout i TIMEOUT (api text targetLang).

(** Every adapter fails in turn: each raced call throws, the next one
    starting where the previous one left the machine. *)
Definition all_adapters_fail (text targetLang : string) (st : state) : Prop :=
  exists e0 st1 ev0 e1 st2 ev1 e2 st3 ev2,
    raced 0 translateWithLingva text targetLang st = (Throw e0, st1, ev0)
    /\ raced 1 translateWithMyMemory text targetLang st1 = (Throw e1, st2, ev1)
    /\ raced 2 translateWithLibreTranslate text targetLang st2 = (Throw e2, st3, ev2).

(** A stable provider set: the reply to a request, and the scheduling of
    ties, do not depend on the state the network is in. *)
Definition stable : Prop :=
  forall w w' req,
    fst (net w req) = fst (net w' req) /\ timer_first w = timer_first w'.

(** A computation whose outcome, events and duration are the same from
    every state. *)
Definition steady {A} (p : M A) : Prop :=
  forall st st',
    outcome_of (p st) = outcome_of (p st')
    /\ events_of (p st) = events_of (p st')
    /\ now (state_of (p st)) + now st' = now (state_of (p st')) + now st
    /\ now st <= now (state_of (p st)).

(** An adapter that invokes no adapter itself. *)
Definition quiet (api : adapter) : Prop :=
  forall text targetLang st, invocations (events_of (api text targetLang st)) = [].

(** The machine when the timer of attempt [controller], armed in [st], has
    fired on a call that would have settled in [st1]. *)
Definition timed_out (controller : nat) (st st1 : state) : state :=
  {| world := world st1;
     now := now st + TIMEOUT;
     flights := abort controller (now st + TIMEOUT) (flights st1) |}.

(** What happens to the attempt at index [i] whose call, started in [st],
    would settle in [st1] with events [ev1], when the timer fires first: the
    raced call fails with "Request timeout"; if there is a next adapter the
    loop goes on with it from the timed-out machine, it is the next one
    invoked, and [i] is not invoked again; if there is none the aggregate
    error is thrown. *)
Definition falls_back (i : nat) (api : adapter) (text targetLang : string)
    (st st1 : state) (ev1 : list event) : Prop :=
  let st2 := timed_out i st st1 in
  let total := length apis in
  let run := translateText_loop total text targetLang i (skipn i apis) st in
  raced i api text targetLang st =
    (Throw (Error "Request timeout"), st2, (ev1 ++ [Aborted i])%list)
  /\ match nth_error apis (i + 1) with
     | Some next =>
         let rest := translateText_loop total text targetLang (i + 1)
                       (skipn (i + 1) apis) st2 in
         exists pre,
           run = (outcome_of rest, state_of rest, (pre ++ events_of rest)%list)
           /\ invocations pre = [i]
           /\ hd_error (invocations (events_of rest)) = Some (i + 1)%nat
           /\ ~ In i (invocations (events_of rest))
     | None =>
         outcome_of run = Throw all_failed
         /\ state_of run = st2
         /\ invocations (events_of run) = [i]
     end.

(** The provider named in a run's result, if it returned one. *)
Definition out_apiUsed_of (run : outcome Translation * state * list event)
  : option string :=
  match outcome_of run with
  | Return a => Some (out_apiUsed a)
  | Throw _ => None
  end.

(** [translateText] throws a [TypeError] at once: nothing is logged, no
    adapter is invoked, no request is sent, the machine is untouched. *)
Definition rejected_before_any_adapter (text targetLang : string) (st : state)
  : Prop :=
  let run := translateText text targetLang st in
  (exists msg, outcome_of run = Throw (TypeError msg))
  /\ state_of run = st
  /\ events_of run = [].

End World.

Arguments Build_state {W} world now flights.
Arguments world {W} s.
Arguments now {W} s.
Arguments flights {W} s.

(* ===================================================================== *)
(** ** Scripted networks *)
(* ===================================================================== *)

(** A network in which each provider always gives the same reply; its state
    counts the requests received.  A request to an unknown address is a
    transport failure. *)
Definition transport_failure : reply :=
  {| delay := 0; settled := Throw (TypeError "Failed to fetch") |}.

Definition scripted (lingva mymemory libre : reply) : N -> request -> reply * N :=
  fun n req =>
    (if String.prefix "https://lingva.ml/api/v1/" (url req) then lingva
     else if String.prefix "https://api.mymemory.translated.net/get?" (url req) then mymemory
     else if String.eqb "https://libretranslate.com/translate" (url req) then libre
     else transport_failure,
     n + 1).

(** A reply with the given latency, status and JSON document. *)
Definition answer (ms status : N) (data : value) : reply :=
  {| delay := ms;
     settled := Return {| status := status; json_delay := 0; json := Return data |} |}.

Definition boot : state N := {| world := 0; now := 0; flights := [] |}.

(* ===================================================================== *)
(** ** Reading traces and replies *)
(* ===================================================================== *)

Inductive provider : Type := Lingva | MyMemory | LibreTranslate.

Definition provider_name (p : provider) : string :=
  match p with
  | Lingva => "Lingva Translate"
  | MyMemory => "MyMemory"
  | LibreTranslate => "LibreTranslate"
  end.

Definition adapter_of {W} (net : W -> request -> reply * W) (p : provider)
  : adapter W :=
  match p with
  | Lingva => translateWithLingva net
  | MyMemory => translateWithMyMemory net
  | LibreTranslate => translateWithLibreTranslate net
  end.

(** The field [key] of a JSON object, if it has one. *)
Definition own_field (v : value) (key : string) : option value :=
  match v with
  | VObject props => assoc key props
  | _ => None
  end.

(** The translated-text field each provider is expected to answer with, as
    the interface table names it: [translation], [responseData.translatedText],
    [translatedText]. *)
Definition expected_field (p : provider) (data : value) : option value :=
  match p with
  | Lingva => own_field data "translation"
  | MyMemory =>
      match own_field data "responseData" with
      | Some responseData => own_field responseData "translatedText"
      | None => None
      end
  | LibreTranslate => own_field data "translatedText"
  end.

(** The expected field of a response; a body that is not a JSON document
    has none. *)
Definition field_of (p : provider) (resp : Response) : option value :=
  match json resp with
  | Return data => expected_field p data
  | Throw _ => None
  end.

Definition transport_fails (rep : reply) : Prop :=
  exists e, settled rep = Throw e.

Definition non_success (rep : reply) : Prop :=
  exists resp, settled rep = Return resp /\ ok resp = false.

Definition lacks_field (p : provider) (rep : reply) : Prop :=
  exists resp, settled rep = Return resp /\ field_of p resp = None.

Definition falsy_field (p : provider) (rep : reply) : Prop :=
  exists resp v,
    settled rep = Return resp /\ field_of p resp = Some v /\ truthy v = false.

(** The adapter contract as the component design words it: the adapter sends
    one request and fails exactly on a transport failure, a non-success
    status or a body without the expected field; otherwise its result holds
    that field's value and the provider's name. *)
Definition fails_exactly_as_specified {W} (net : W -> request -> reply * W)
    (p : provider) (text targetLang : string) (st : state W) : Prop :=
  exists r st1 req,
    adapter_of net p text targetLang st = (r, st1, [Fetch req])
    /\ let rep := fst (net (world st) req) in
       (is_throw r = true <->
          transport_fails rep \/ non_success rep \/ lacks_field p rep)
       /\ (is_throw r = false ->
           exists resp v,
             settled rep = Return resp /\ field_of p resp = Some v
             /\ r = Return {| translatedText := v; apiUsed := provider_name p |}).

(** Can the adapter not build its request for this text?  The two adapters
    that put the text in a URL pass it to [encodeURIComponent]; the third
    sends it in a JSON body, and [JSON.stringify] accepts every text. *)
Definition unencodable (p : provider) (text : string) : bool :=
  match p with
  | Lingva | MyMemory => lone_surrogate text
  | LibreTranslate => false
  end.

(** The contract the adapters keep.  On a text it cannot put in its URL the
    adapter fails with the [URIError] and sends nothing.  On every other
    text it sends one request and fails exactly on a transport failure, a
    non-success status, a body without the expected field, or (the guard
    [!field]) a field that is present but falsy (empty string, [null], zero,
    [false]); otherwise its result holds that field's value and the
    provider's name. *)
Definition fails_exactly_when {W} (net : W -> request -> reply * W)
    (p : provider) (text targetLang : string) (st : state W) : Prop :=
  if unencodable p text
  then adapter_of net p text targetLang st = (Throw (URIError "URI malformed"), st, [])
  else
    exists r st1 req,
      adapter_of net p text targetLang st = (r, st1, [Fetch req])
      /\ let rep := fst (net (world st) req) in
         (is_throw r = true <->
            transport_fails rep \/ non_success rep \/ lacks_field p rep
            \/ falsy_field p rep)
         /\ (is_throw r = false ->
             exists resp v,
               settled rep = Return resp /\ field_of p resp = Some v
               /\ r = Return {| translatedText := v; apiUsed := provider_name p |}).

(* ===================================================================== *)
(** ** Sample replies *)
(* ===================================================================== *)

Definition bonjour : reply :=
  answer 120 200 (VObject [("translation", VString "Bonjour, le monde!")]).

Definition mymemory_bonjour : reply :=
  answer 80 200
    (VObject [("responseData", VObject [("translatedText", VString "Bonjour")])]).

Definition libre_bonjour : reply :=
  answer 80 200 (VObject [("translatedText", VString "Bonjour")]).

Definition server_error : reply := answer 30 500 VNull.

(** A correct answer that arrives after twenty seconds. *)
Definition too_late : reply :=
  answer 20000 200 (VObject [("translation", VString "Bonjour, le monde!")]).

(** A success response whose [translation] field is the empty string. *)
Definition empty_translation : reply :=
  answer 50 200 (VObject [("translation", VString "")]).

(** The text of the two code units [a] and U+D800, a surrogate without its
    partner. *)
Definition half_pair : string :=
  String "a" (String (ascii_of_N 237) (String (ascii_of_N 160)
    (String (ascii_of_N 128) EmptyString))).

(** The event loop that runs the timer first on a tie. *)
Definition timer_wins : N -> bool := fun _ => true.

(* ===================================================================== *)
(** ** Strings and numbers as the interface code uses them *)
(* ===================================================================== *)

(** The inverse of [hex_digit], for reading a [%XX] escape back. *)
Definition hex_value (c : ascii) : N :=
  let n := N_of_ascii c in
  if n <? 58 then n - 48 else n - 55.

(** Reads the escapes of [Encode] back into bytes. *)
Fixpoint unescape (s : string) : string :=
  match s with
  | String "%" (String h (String l rest)) =>
      String (ascii_of_N (16 * hex_value h + hex_value l)) (unescape rest)
  | String c rest => String c (unescape rest)
  | EmptyString => EmptyString
  end.

(** A byte of the form 10xxxxxx, which continues a character. *)
Definition continuation (c : ascii) : bool :=
  let n := N_of_ascii c in (128 <=? n) && (n <? 192).

(** How many continuation bytes follow the first byte [c] of a character. *)
Definition followers (c : ascii) : nat :=
  let n := N_of_ascii c in
  if n <? 192 then 0%nat else if n <? 224 then 1%nat else if n <? 240 then 2%nat else 3%nat.

(** The UTF-16 code units of the character whose first byte is [c]: two for
    a character outside the basic plane (a four-byte encoding), one
    otherwise. *)
Definition code_units (c : ascii) : N :=
  if 240 <=? N_of_ascii c then 2 else 1.

(** [s.length], read off the UTF-8 encoding: [awaited] continuation bytes
    still belong to the character being read.  (A byte that continues
    nothing counts as a character of its own, so that only the empty string
    has length zero.) *)
Fixpoint length_from (awaited : nat) (s : string) : N :=
  match s with
  | EmptyString => 0
  | String c rest =>
      match awaited with
      | S k =>
          if continuation c then length_from k rest
          else code_units c + length_from (followers c) rest
      | O => code_units c + length_from (followers c) rest
      end
  end.

Definition length_utf16 (s : string) : N := length_from 0 s.

(** White space and line terminators (ECMAScript 12.2 and 12.3), by the
    bytes of their encodings: TAB, LF, VT, FF, CR, SP; U+00A0; U+1680,
    U+2000-U+200A, U+2028, U+2029, U+202F, U+205F, U+3000, U+FEFF. *)
Definition white1 (c : ascii) : bool :=
  existsb (N.eqb (N_of_ascii c)) [9; 10; 11; 12; 13; 32].

Definition white2 (c1 c2 : ascii) : bool :=
  (N_of_ascii c1 =? 194) && (N_of_ascii c2 =? 160).

Definition white3 (c1 c2 c3 : ascii) : bool :=
  let n1 := N_of_ascii c1 in
  let n2 := N_of_ascii c2 in
  let n3 := N_of_ascii c3 in
  ((n1 =? 225) && (n2 =? 154) && (n3 =? 128))
  || ((n1 =? 226) && (n2 =? 128)
      && (((128 <=? n3) && (n3 <=? 138)) || (n3 =? 168) || (n3 =? 169) || (n3 =? 175)))
  || ((n1 =? 226) && (n2 =? 129) && (n3 =? 159))
  || ((n1 =? 227) && (n2 =? 128) && (n3 =? 128))
  || ((n1 =? 239) && (n2 =? 187) && (n3 =? 191)).

(** Drops the white space at the head of a list of bytes; with [forward]
    unset the list is a string read from its end, and the bytes of a
    character come in reverse. *)
Fixpoint drop_white (forward : bool) (l : list ascii) : list ascii :=
  match l with
  | c1 :: r1 =>
      if white1 c1 then drop_white forward r1
      else match r1 with
           | c2 :: r2 =>
               if (if forward then white2 c1 c2 else white2 c2 c1)
               then drop_white forward r2
               else match r2 with
                    | c3 :: r3 =>
                        if (if forward then white3 c1 c2 c3 else white3 c3 c2 c1)
                        then drop_white forward r3
                        else l
                    | [] => l
                    end
           | [] => l
           end
  | [] => l
  end.

(** [s.trim()]. *)
Definition trim (s : string) : string :=
  string_of_list_ascii
    (rev (drop_white false (rev (drop_white true (list_ascii_of_string s))))).

(** A count as a JavaScript number (a binary64 float), and the literal
    [0.9]: the double nearest to nine tenths. *)
Definition Number (n : N) : spec_float :=
  binary_normalize 53 1024 (Z.of_N n) 0 false.

Definition literal_0_9 : spec_float := SFdiv 53 1024 (Number 9) (Number 10).

(* ===================================================================== *)
(** ** The page *)
(* ===================================================================== *)

(** A language button: its [data-lang] and [data-name] attributes and
    whether its class list holds [active]. *)
Record button := { dataset_lang : string; dataset_name : string; active : bool }.

(** The elements the script holds, by the properties it reads and writes.
    A [_show], [_rtl] or [active] field says whether the class list holds
    that class; [outputText_textContent] is the value last assigned (the
    page shows its string conversion). *)
Record dom := {
  inputText_value : string;
  outputText_textContent : value;
  outputText_show : bool;
  outputText_rtl : bool;
  loadingState_show : bool;
  emptyState_show : bool;
  errorState_show : bool;
  errorText_textContent : string;
  charCount_textContent : string;
  charCount_color : string;
  translateBtn_disabled : bool;
  copyBtn_disabled : bool;
  copyBtn_innerHTML : string;
  copyBtn_background : string;
  detectedLang_textContent : string;
  langButtons : list button
}.

Definition set_inputText_value (x : string) (e : dom) : dom :=
  {| inputText_value := x;
     outputText_textContent := outputText_textContent e;
     outputText_show := outputText_show e;
     outputText_rtl := outputText_rtl e;
     loadingState_show := loadingState_show e;
     emptyState_show := emptyState_show e;
     errorState_show := errorState_show e;
     errorText_textContent := errorText_textContent e;
     charCount_textContent := charCount_textContent e;
     charCount_color := charCount_color e;
     translateBtn_disabled := translateBtn_disabled e;
     copyBtn_disabled := copyBtn_disabled e;
     copyBtn_innerHTML := copyBtn_innerHTML e;
     copyBtn_background := copyBtn_background e;
     detectedLang_textContent := detectedLang_textContent e;
     langButtons := langButtons e |}.

Definition set_outputText_textContent (x : value) (e : dom) : dom :=
  {| inputText_value := inputText_value e;
     outputText_textContent := x;
     outputText_show := outputText_show e;
     outputText_rtl := outputText_rtl e;
     loadingState_show := loadingState_show e;
     emptyState_show := emptyState_show e;
     errorState_show := errorState_show e;
     errorText_textContent := errorText_textContent e;
     charCount_textContent := charCount_textContent e;
     charCount_color := charCount_color e;
     translateBtn_disabled := translateBtn_disabled e;
     copyBtn_disabled := copyBtn_disabled e;
     copyBtn_innerHTML := copyBtn_innerHTML e;
     copyBtn_background := copyBtn_background e;
     detectedLang_textContent := detectedLang_textContent e;
     langButtons := langButtons e |}.

Definition set_outputText_show (x : bool) (e : dom) : dom :=
  {| inputText_value := inputText_value e;
     outputText_textContent := outputText_textContent e;
     outputText_show := x;
     outputText_rtl := outputText_rtl e;
     loadingState_show := loadingState_show e;
     emptyState_show := emptyState_show e;
     errorState_show := errorState_show e;
     errorText_textContent := errorText_textContent e;
     charCount_textContent := charCount_textContent e;
     charCount_color := charCount_color e;
     translateBtn_disabled := translateBtn_disabled e;
     copyBtn_disabled := copyBtn_disabled e;
     copyBtn_innerHTML := copyBtn_innerHTML e;
     copyBtn_background := copyBtn_background e;
     detectedLang_textContent := detectedLang_textContent e;
     langButtons := langButtons e |}.

Definition set_outputText_rtl (x : bool) (e : dom) : dom :=
  {| inputText_value := inputText_value e;
     outputText_textContent := outputText_textContent e;
     outputText_show := outputText_show e;
     outputText_rtl := x;
     loadingState_show := loadingState_show e;
     emptyState_show := emptyState_show e;
     errorState_show := errorState_show e;
     errorText_textContent := errorText_textContent e;
     charCount_textContent := charCount_textContent e;
     charCount_color := charCount_color e;
     translateBtn_disabled := translateBtn_disabled e;
     copyBtn_disabled := copyBtn_disabled e;
     copyBtn_innerHTML := copyBtn_innerHTML e;
     copyBtn_background := copyBtn_background e;
     detectedLang_textContent := detectedLang_textContent e;
     langButtons := langButtons e |}.

Definition set_loadingState_show (x : bool) (e : dom) : dom :=
  {| inputText_value := inputText_value e;
     outputText_textContent := outputText_textContent e;
     outputText_show := outputText_show e;
     outputText_rtl := outputText_rtl e;
     loadingState_show := x;
     emptyState_show := emptyState_show e;
     errorState_show := errorState_show e;
     errorText_textContent := errorText_textContent e;
     charCount_textContent := charCount_textContent e;
     charCount_color := charCount_color e;
     translateBtn_disabled := translateBtn_disabled e;
     copyBtn_disabled := copyBtn_disabled e;
     copyBtn_innerHTML := copyBtn_innerHTML e;
     copyBtn_background := copyBtn_background e;
     detectedLang_textContent := detectedLang_textContent e;
     langButtons := langButtons e |}.

Definition set_emptyState_show (x : bool) (e : dom) : dom :=
  {| inputText_value := inputText_value e;
     outputText_textContent := outputText_textContent e;
     outputText_show := outputText_show e;
     outputText_rtl := outputText_rtl e;
     loadingState_show := loadingState_show e;
     emptyState_show := x;
     errorState_show := errorState_show e;
     errorText_textContent := errorText_textContent e;
     charCount_textContent := charCount_textContent e;
     charCount_color := charCount_color e;
     translateBtn_disabled := translateBtn_disabled e;
     copyBtn_disabled := copyBtn_disabled e;
     copyBtn_innerHTML := copyBtn_innerHTML e;
     copyBtn_background := copyBtn_background e;
     detectedLang_textContent := detectedLang_textContent e;
     langButtons := langButtons e |}.

Definition set_errorState_show (x : bool) (e : dom) : dom :=
  {| inputText_value := inputText_value e;
     outputText_textContent := outputText_textContent e;
     outputText_show := outputText_show e;
     outputText_rtl := outputText_rtl e;
     loadingState_show := loadingState_show e;
     emptyState_show := emptyState_show e;
     errorState_show := x;
     errorText_textContent := errorText_textContent e;
     charCount_textContent := charCount_textContent e;
     charCount_color := charCount_color e;
     translateBtn_disabled := translateBtn_disabled e;
     copyBtn_disabled := copyBtn_disabled e;
     copyBtn_innerHTML := copyBtn_innerHTML e;
     copyBtn_background := copyBtn_background e;
     detectedLang_textContent := detectedLang_textContent e;
     langButtons := langButtons e |}.

Definition set_errorText_textContent (x : string) (e : dom) : dom :=
  {| inputText_value := inputText_value e;
     outputText_textContent := outputText_textContent e;
     outputText_show := outputText_show e;
     outputText_rtl := outputText_rtl e;
     loadingState_show := loadingState_show e;
     emptyState_show := emptyState_show e;
     errorState_show := errorState_show e;
     errorText_textContent := x;
     charCount_textContent := charCount_textContent e;
     charCount_color := charCount_color e;
     translateBtn_disabled := translateBtn_disabled e;
     copyBtn_disabled := copyBtn_disabled e;
     copyBtn_innerHTML := copyBtn_innerHTML e;
     copyBtn_background := copyBtn_background e;
     detectedLang_textContent := detectedLang_textContent e;
     langButtons := langButtons e |}.

Definition set_charCount_textContent (x : string) (e : dom) : dom :=
  {| inputText_value := inputText_value e;
     outputText_textContent := outputText_textContent e;
     outputText_show := outputText_show e;
     outputText_rtl := outputText_rtl e;
     loadingState_show := loadingState_show e;
     emptyState_show := emptyState_show e;
     errorState_show := errorState_show e;
     errorText_textContent := errorText_textContent e;
     charCount_textContent := x;
     charCount_color := charCount_color e;
     translateBtn_disabled := translateBtn_disabled e;
     copyBtn_disabled := copyBtn_disabled e;
     copyBtn_innerHTML := copyBtn_innerHTML e;
     copyBtn_background := copyBtn_background e;
     detectedLang_textContent := detectedLang_textContent e;
     langButtons := langButtons e |}.

Definition set_charCount_color (x : string) (e : dom) : dom :=
  {| inputText_value := inputText_value e;
     outputText_textContent := outputText_textContent e;
     outputText_show := outputText_show e;
     outputText_rtl := outputText_rtl e;
     loadingState_show := loadingState_show e;
     emptyState_show := emptyState_show e;
     errorState_show := errorState_show e;
     errorText_textContent := errorText_textContent e;
     charCount_textContent := charCount_textContent e;
     charCount_color := x;
     translateBtn_disabled := translateBtn_disabled e;
     copyBtn_disabled := copyBtn_disabled e;
     copyBtn_innerHTML := copyBtn_innerHTML e;
     copyBtn_background := copyBtn_background e;
     detectedLang_textContent := detectedLang_textContent e;
     langButtons := langButtons e |}.

Definition set_translateBtn_disabled (x : bool) (e : dom) : dom :=
  {| inputText_value := inputText_value e;
     outputText_textContent := outputText_textContent e;
     outputText_show := outputText_show e;
     outputText_rtl := outputText_rtl e;
     loadingState_show := loadingState_show e;
     emptyState_show := emptyState_show e;
     errorState_show := errorState_show e;
     errorText_textContent := errorText_textContent e;
     charCount_textContent := charCount_textContent e;
     charCount_color := charCount_color e;
     translateBtn_disabled := x;
     copyBtn_disabled := copyBtn_disabled e;
     copyBtn_innerHTML := copyBtn_innerHTML e;
     copyBtn_background := copyBtn_background e;
     detectedLang_textContent := detectedLang_textContent e;
     langButtons := langButtons e |}.

Definition set_copyBtn_disabled (x : bool) (e : dom) : dom :=
  {| inputText_value := inputText_value e;
     outputText_textContent := outputText_textContent e;
     outputText_show := outputText_show e;
     outputText_rtl := outputText_rtl e;
     loadingState_show := loadingState_show e;
     emptyState_show := emptyState_show e;
     errorState_show := errorState_show e;
     errorText_textContent := errorText_textContent e;
     charCount_textContent := charCount_textContent e;
     charCount_color := charCount_color e;
     translateBtn_disabled := translateBtn_disabled e;
     copyBtn_disabled := x;
     copyBtn_innerHTML := copyBtn_innerHTML e;
     copyBtn_background := copyBtn_background e;
     detectedLang_textContent := detectedLang_textContent e;
     langButtons := langButtons e |}.

Definition set_copyBtn_innerHTML (x : string) (e : dom) : dom :=
  {| inputText_value := inputText_value e;
     outputText_textContent := outputText_textContent e;
     outputText_show := outputText_show e;
     outputText_rtl := outputText_rtl e;
     loadingState_show := loadingState_show e;
     emptyState_show := emptyState_show e;
     errorState_show := errorState_show e;
     errorText_textContent := errorText_textContent e;
     charCount_textContent := charCount_textContent e;
     charCount_color := charCount_color e;
     translateBtn_disabled := translateBtn_disabled e;
     copyBtn_disabled := copyBtn_disabled e;
     copyBtn_innerHTML := x;
     copyBtn_background := copyBtn_background e;
     detectedLang_textContent := detectedLang_textContent e;
     langButtons := langButtons e |}.

Definition set_copyBtn_background (x : string) (e : dom) : dom :=
  {| inputText_value := inputText_value e;
     outputText_textContent := outputText_textContent e;
     outputText_show := outputText_show e;
     outputText_rtl := outputText_rtl e;
     loadingState_show := loadingState_show e;
     emptyState_show := emptyState_show e;
     errorState_show := errorState_show e;
     errorText_textContent := errorText_textContent e;
     charCount_textContent := charCount_textContent e;
     charCount_color := charCount_color e;
     translateBtn_disabled := translateBtn_disabled e;
     copyBtn_disabled := copyBtn_disabled e;
     copyBtn_innerHTML := copyBtn_innerHTML e;
     copyBtn_background := x;
     detectedLang_textContent := detectedLang_textContent e;
     langButtons := langButtons e |}.

Definition set_detectedLang_textContent (x : string) (e : dom) : dom :=
  {| inputText_value := inputText_value e;
     outputText_textContent := outputText_textContent e;
     outputText_show := outputText_show e;
     outputText_rtl := outputText_rtl e;
     loadingState_show := loadingState_show e;
     emptyState_show := emptyState_show e;
     errorState_show := errorState_show e;
     errorText_textContent := errorText_textContent e;
     charCount_textContent := charCount_textContent e;
     charCount_color := charCount_color e;
     translateBtn_disabled := translateBtn_disabled e;
     copyBtn_disabled := copyBtn_disabled e;
     copyBtn_innerHTML := copyBtn_innerHTML e;
     copyBtn_background := copyBtn_background e;
     detectedLang_textContent := x;
     langButtons := langButtons e |}.

Definition set_langButtons (x : list button) (e : dom) : dom :=
  {| inputText_value := inputText_value e;
     outputText_textContent := outputText_textContent e;
     outputText_show := outputText_show e;
     outputText_rtl := outputText_rtl e;
     loadingState_show := loadingState_show e;
     emptyState_show := emptyState_show e;
     errorState_show := errorState_show e;
     errorText_textContent := errorText_textContent e;
     charCount_textContent := charCount_textContent e;
     charCount_color := charCount_color e;
     translateBtn_disabled := translateBtn_disabled e;
     copyBtn_disabled := copyBtn_disabled e;
     copyBtn_innerHTML := copyBtn_innerHTML e;
     copyBtn_background := copyBtn_background e;
     detectedLang_textContent := detectedLang_textContent e;
     langButtons := x |}.

(** Application state: the page and the two global variables
    ([selectedTargetLang] is [null] until a language is chosen). *)
Record client := {
  elements : dom;
  selectedTargetLang : option string;
  isTranslating : bool
}.

(* ===================================================================== *)
(** ** Utility functions *)
(* ===================================================================== *)

(** Show specific output state and hide others. *)
Definition showState (state : string) (e : dom) : dom :=
  let e := set_loadingState_show false e in
  let e := set_emptyState_show false e in
  let e := set_errorState_show false e in
  let e := set_outputText_show false e in
  if String.eqb state "loading" then set_loadingState_show true e
  else if String.eqb state "empty" then set_emptyState_show true e
  else if String.eqb state "error" then set_errorState_show true e
  else if String.eqb state "output" then set_outputText_show true e
  else e.

(** Show error message to user. *)
Definition showError (msg : string) (e : dom) : dom :=
  let e := set_errorText_textContent msg e in
  let e := showState "error" e in
  set_copyBtn_disabled true e.

(** Update character counter: [count > CONFIG.MAX_CHARS * 0.9] is a
    comparison of binary64 numbers. *)
Definition updateCharCounter (count : N) (e : dom) : dom :=
  let e := set_charCount_textContent (decimal count) e in
  if SFltb (SFmul 53 1024 (Number CONFIG.MAX_CHARS) literal_0_9) (Number count)
  then set_charCount_color "var(--error-color)" e
  else set_charCount_color "var(--text-muted)" e.

(** The property key a language code stands for when it indexes the
    registry: a string is its own key, [null] is the key "null". *)
Definition property_key (langCode : option string) : string :=
  match langCode with
  | Some code => code
  | None => "null"
  end.

(** Apply RTL layout for specific languages:
    [CONFIG.LANGUAGES[langCode]?.rtl || false] decides whether the output
    gets or loses the class [rtl]. *)
Definition applyRTL (langCode : option string) (e : dom) : outcome dom :=
  match get_prop CONFIG.LANGUAGES (property_key langCode) with
  | Throw err => Throw err
  | Return entry =>
      match (if nullish entry then Return VUndefined else get_prop entry "rtl") with
      | Throw err => Throw err
      | Return rtl =>
          let isRTL := truthy rtl in
          Return (set_outputText_rtl isRTL e)
      end
  end.

(** Update language button states. *)
Definition updateLanguageButtons (langCode : string) (e : dom) : dom :=
  set_langButtons
    (map (fun btn => {| dataset_lang := dataset_lang btn;
                        dataset_name := dataset_name btn;
                        active := String.eqb (dataset_lang btn) langCode |})
         (langButtons e))
    e.

(* ===================================================================== *)
(** ** Event handlers *)
(* ===================================================================== *)

(** A handler runs on the application state and returns or throws; what it
    wrote before throwing stays written.  (The handlers' console output is
    not part of this state.) *)
Definition U (A : Type) : Type := client -> outcome A * client.

Definition u_ret {A} (a : A) : U A := fun s => (Return a, s).

Definition u_bind {A B} (m : U A) (k : A -> U B) : U B :=
  fun s =>
    match m s with
    | (Return a, s1) => k a s1
    | (Throw e, s1) => (Throw e, s1)
    end.

Definition u_eval {A} (o : outcome A) : U A := fun s => (o, s).

Definition u_read {A} (f : client -> A) : U A := fun s => (Return (f s), s).

Definition with_elements (e : dom) (s : client) : client :=
  {| elements := e;
     selectedTargetLang := selectedTargetLang s;
     isTranslating := isTranslating s |}.

(** A statement that writes to the page. *)
Definition u_page (f : dom -> dom) : U unit :=
  fun s => (Return tt, with_elements (f (elements s)) s).

(** A call, writing to the page, that may throw. *)
Definition u_call (f : dom -> outcome dom) : U unit :=
  fun s =>
    match f (elements s) with
    | Return e => (Return tt, with_elements e s)
    | Throw err => (Throw err, s)
    end.

Definition set_selectedTargetLang (langCode : option string) : U unit :=
  fun s => (Return tt,
            {| elements := elements s;
               selectedTargetLang := langCode;
               isTranslating := isTranslating s |}).

Definition set_isTranslating (b : bool) : U unit :=
  fun s => (Return tt,
            {| elements := elements s;
               selectedTargetLang := selectedTargetLang s;
               isTranslating := b |}).

(** [try { body } catch (error) { handler error } finally { finalizer }]. *)
Definition u_try {A} (body : U A) (handler : exn -> U A) (finalizer : U unit) : U A :=
  fun s =>
    let caught := match body s with
                  | (Throw e, s1) => handler e s1
                  | done => done
                  end in
    match finalizer (snd caught) with
    | (Return _, s2) => (fst caught, s2)
    | (Throw e, s2) => (Throw e, s2)
    end.

Notation "x <- m ;; k" := (u_bind m (fun x => k))
  (at level 100, m at next level, right associativity).
Notation "m ;;; k" := (u_bind m (fun _ => k))
  (at level 100, right associativity).

(** Handle text input changes; [value] is what the edit leaves in the text
    area ([e.target.value]). *)
Definition on_input (value : string) : U unit :=
  u_page (set_inputText_value value) ;;;
  let text := value in
  u_page (updateCharCounter (length_utf16 text)) ;;;
  shown <- u_read (fun s => outputText_show (elements s)) ;;
  if shown
  then u_page (showState "empty") ;;; u_page (set_copyBtn_disabled true)
  else u_ret tt.

(** Handle clear button click. *)
Definition on_clear : U unit :=
  u_page (set_inputText_value "") ;;;
  u_page (updateCharCounter 0) ;;;
  u_page (showState "empty") ;;;
  u_page (set_copyBtn_disabled true) ;;;
  u_page (set_detectedLang_textContent "").

(** Handle language selection: the click listener of the button at index
    [i] (nothing listens where there is no button). *)
Definition on_language_click (i : nat) : U unit :=
  found <- u_read (fun s => nth_error (langButtons (elements s)) i) ;;
  match found with
  | None => u_ret tt
  | Some btn =>
      let langCode := dataset_lang btn in
      set_selectedTargetLang (Some langCode) ;;;
      u_page (updateLanguageButtons langCode) ;;;
      value <- u_read (fun s => inputText_value (elements s)) ;;
      let hasText := CONFIG.MIN_CHARS <=? length_utf16 (trim value) in
      u_page (set_translateBtn_disabled (negb hasText))
  end.

(** [!selectedTargetLang]. *)
Definition unselected (langCode : option string) : bool :=
  match langCode with
  | None => true
  | Some code => String.eqb code ""
  end.

(** Handle translation button click, up to the [await]: the validation, the
    guard against a second request, and the loading state.  The result is
    the call [translateText(inputText, selectedTargetLang)] the handler
    suspends on, or [None] when it has returned before making it. *)
Definition click_sync : U (option (string * string)) :=
  value <- u_read (fun s => inputText_value (elements s)) ;;
  let inputText := trim value in
  if String.eqb inputText ""
  then u_page (showError "Please enter some text to translate.") ;;; u_ret None
  else if length_utf16 inputText <? CONFIG.MIN_CHARS
  then u_page (showError ("Text must be at least " ++ decimal CONFIG.MIN_CHARS
                          ++ " character(s).")) ;;;
       u_ret None
  else
    selected <- u_read selectedTargetLang ;;
    if unselected selected
    then u_page (showError "Please select a target language.") ;;; u_ret None
    else
      busy <- u_read isTranslating ;;
      if busy then u_ret None
      else
        set_isTranslating true ;;;
        u_page (set_translateBtn_disabled true) ;;;
        u_page (set_copyBtn_disabled true) ;;;
        u_page (showState "loading") ;;;
        u_ret (Some (inputText, property_key selected)).

(** The rest of the handler, resumed when [translateText] has settled with
    [awaited]: the remainder of the [try] block, the [catch] and the
    [finally]. *)
Definition click_resume (awaited : outcome Translation) : U unit :=
  u_try
    (result <- u_eval awaited ;;
     u_page (set_outputText_textContent (out_translatedText result)) ;;;
     selected <- u_read selectedTargetLang ;;
     u_call (applyRTL selected) ;;;
     u_page (showState "output") ;;;
     u_page (set_copyBtn_disabled false) ;;;
     let apiInfo := if String.eqb (out_apiUsed result) "" then "Translation API"
                    else out_apiUsed result in
     entry <- u_eval (get_prop CONFIG.LANGUAGES (property_key selected)) ;;
     language_name <- u_eval (get_prop entry "name") ;;
     u_page (set_detectedLang_textContent
               ("Powered by " ++ apiInfo ++ " • Translated to "
                ++ template language_name)))
    (fun error => u_page (showError (message error)))
    (set_isTranslating false ;;; u_page (set_translateBtn_disabled false)).

(** Handle Enter key in textarea: Ctrl+Enter or Cmd+Enter clicks the
    translate button unless it is disabled. *)
Definition on_keydown (key : string) (ctrlKey metaKey : bool)
  : U (option (string * string)) :=
  if String.eqb key "Enter" && (ctrlKey || metaKey)
  then
    disabled <- u_read (fun s => translateBtn_disabled (elements s)) ;;
    if negb disabled then click_sync else u_ret None
  else u_ret None.

(** What the copy handler leaves behind when the clipboard has settled: a
    timer that will put [originalText] back, or an alert. *)
Inductive copy_feedback : Type :=
| RestoreLater (originalText : string)
| Alert (msg : string).

(** Handle copy button click, up to the [await]: the text handed to
    [navigator.clipboard.writeText]. *)
Definition copy_sync : U value :=
  u_read (fun s => outputText_textContent (elements s)).

(** The rest of the copy handler, resumed when the clipboard write has
    settled with [written]. *)
Definition copy_resume (written : outcome unit) : U copy_feedback :=
  u_try
    (u_eval written ;;;
     originalText <- u_read (fun s => copyBtn_innerHTML (elements s)) ;;
     u_page (set_copyBtn_innerHTML "<span>✅</span> Copied!") ;;;
     u_page (set_copyBtn_background "var(--success-color)") ;;;
     u_ret (RestoreLater originalText))
    (fun error => u_ret (Alert "Failed to copy text. Please copy manually."))
    (u_ret tt).

(** The callback of the copy handler's two-second timer. *)
Definition copy_restore (originalText : string) : U unit :=
  u_page (set_copyBtn_innerHTML originalText) ;;;
  u_page (set_copyBtn_background "").

(** Initialize the application; clicking the first language button runs its
    click listener. *)
Definition initializeApp : U unit :=
  u_page (showState "empty") ;;;
  u_page (updateCharCounter 0) ;;;
  u_page (set_translateBtn_disabled true) ;;;
  u_page (set_copyBtn_disabled true) ;;;
  on_language_click 0.

(** The application as the script leaves it before [DOMContentLoaded], on a
    page [e]. *)
Definition loaded (e : dom) : client :=
  {| elements := e; selectedTargetLang := None; isTranslating := false |}.

(* ===================================================================== *)
(** ** The page over time *)
(* ===================================================================== *)

(** Between two events the page is at rest: the application state, the
    number of translate handlers suspended on [translateText], the number of
    copy handlers suspended on the clipboard, and the armed copy timers with
    the text each will restore (oldest first; they all wait two seconds, so
    they fire in the order they were armed). *)
Record machine := {
  ui : client;
  pending : nat;
  writing : nat;
  timers : list string
}.

(** What can happen next: the user's actions, and the completions the
    suspended handlers wait for. *)
Inductive ui_event : Type :=
| Input (value : string)
| Clear
| Language (i : nat)
| Translate
| Keydown (key : string) (ctrlKey metaKey : bool)
| Settled (awaited : outcome Translation)
| Copy
| Written (written : outcome unit)
| Timer.

(** One more suspended handler when the click went as far as the call. *)
Definition started (r : outcome (option (string * string))) : nat :=
  match r with
  | Return (Some _) => 1
  | _ => 0
  end.

(** The page after an event, each handler run to its end or to its [await];
    [None] when the event cannot happen (a disabled button dispatches no
    click, nothing is suspended that could complete, no timer is armed). *)
Definition step (ev : ui_event) (m : machine) : option machine :=
  match ev with
  | Input value =>
      Some {| ui := snd (on_input value (ui m)); pending := pending m;
              writing := writing m; timers := timers m |}
  | Clear =>
      Some {| ui := snd (on_clear (ui m)); pending := pending m;
              writing := writing m; timers := timers m |}
  | Language i =>
      Some {| ui := snd (on_language_click i (ui m)); pending := pending m;
              writing := writing m; timers := timers m |}
  | Translate =>
      if translateBtn_disabled (elements (ui m)) then None
      else
        let run := click_sync (ui m) in
        Some {| ui := snd run; pending := pending m + started (fst run);
                writing := writing m; timers := timers m |}
  | Keydown key ctrlKey metaKey =>
      let run := on_keydown key ctrlKey metaKey (ui m) in
      Some {| ui := snd run; pending := pending m + started (fst run);
              writing := writing m; timers := timers m |}
  | Settled awaited =>
      match pending m with
      | O => None
      | S k =>
          Some {| ui := snd (click_resume awaited (ui m)); pending := k;
                  writing := writing m; timers := timers m |}
      end
  | Copy =>
      if copyBtn_disabled (elements (ui m)) then None
      else
        Some {| ui := snd (copy_sync (ui m)); pending := pending m;
                writing := S (writing m); timers := timers m |}
  | Written written =>
      match writing m with
      | O => None
      | S k =>
          let run := copy_resume written (ui m) in
          Some {| ui := snd run; pending := pending m; writing := k;
                  timers := match fst run with
                            | Return (RestoreLater originalText) =>
                                timers m ++ [originalText]
                            | _ => timers m
                            end |}
      end
  | Timer =>
      match timers m with
      | [] => None
      | originalText :: rest =>
          Some {| ui := snd (copy_restore originalText (ui m)); pending := pending m;
                  writing := writing m; timers := rest |}
      end
  end.

(** The page after a sequence of events. *)
Fixpoint run_events (evs : list ui_event) (m : machine) : option machine :=
  match evs with
  | [] => Some m
  | ev :: rest =>
      match step ev m with
      | Some m' => run_events rest m'
      | None => None
      end
  end.

(** The page once [initializeApp] has run on a page [e]. *)
Definition started_on (e : dom) : machine :=
  {| ui := snd (initializeApp (loaded e)); pending := 0; writing := 0; timers := [] |}.

(** The states the page can be in: those some sequence of events leads to
    from its start. *)
Definition reachable (e : dom) (m : machine) : Prop :=
  exists evs, run_events evs (started_on e) = Some m.

(** The panels that are shown, by name. *)
Definition shown (e : dom) : list string :=
  (if loadingState_show e then ["loading"] else [])
  ++ (if emptyState_show e then ["empty"] else [])
  ++ (if errorState_show e then ["error"] else [])
  ++ (if outputText_show e then ["output"] else []).

(** The handler of the translate button run without interruption: up to the
    call, the call on the network, and the rest. *)
Definition on_translate_click {W} (net : W -> request -> reply * W)
    (timer_first : W -> bool) (s : client) (st : state W)
  : client * state W * list event :=
  match click_sync s with
  | (Return (Some (text, targetLang)), s1) =>
      match translateText net timer_first text targetLang st with
      | (awaited, st1, ev) => (snd (click_resume awaited s1), st1, ev)
      end
  | (_, s1) => (s1, st, [])
  end.

(* ===================================================================== *)
(** ** Vocabulary of the page's properties *)
(* ===================================================================== *)

(** The panel flags and the copy flag of a page. *)
Definition panels (e : dom) : bool * bool * bool * bool * bool :=
  (loadingState_show e, emptyState_show e, errorState_show e, outputText_show e,
   copyBtn_disabled e).

(** What a page at rest shows: one panel, and an enabled copy button
    beside the output only. *)
Definition rest_panels : list (bool * bool * bool * bool * bool) :=
  [ (true, false, false, false, true);
    (false, true, false, false, true);
    (false, false, true, false, true);
    (false, false, false, true, false) ].

(** What holds of the page between two events, [e0] being the page the
    script was loaded on. *)
Definition tidy (e0 : dom) (m : machine) : Prop :=
  let s := ui m in
  let e := elements s in
  In (panels e) rest_panels
  /\ (pending m <= 1)%nat
  /\ (isTranslating s = true <-> pending m = 1%nat)
  /\ map dataset_lang (langButtons e) = map dataset_lang (langButtons e0)
  /\ match selectedTargetLang s with
     | Some code =>
         In code (map dataset_lang (langButtons e0))
         /\ map active (langButtons e) =
            map (fun btn => String.eqb (dataset_lang btn) code) (langButtons e)
     | None => langButtons e0 = []
     end.

(** The names the registry gives the supported codes. *)
Definition language_names : list (string * string) :=
  [("en", "English"); ("ur", "Urdu"); ("hi", "Hindi"); ("fr", "French")].

(** A page with one button for each language of the registry, and a text
    waiting in the text area. *)
Definition sample_page : dom :=
  {| inputText_value := "  Hello, world!  ";
     outputText_textContent := VString "";
     outputText_show := false;
     outputText_rtl := false;
     loadingState_show := false;
     emptyState_show := false;
     errorState_show := false;
     errorText_textContent := "";
     charCount_textContent := "0";
     charCount_color := "";
     translateBtn_disabled := false;
     copyBtn_disabled := false;
     copyBtn_innerHTML := "<span>📋</span> Copy";
     copyBtn_background := "";
     detectedLang_textContent := "";
     langButtons :=
       [ {| dataset_lang := "en"; dataset_name := "English"; active := false |};
         {| dataset_lang := "ur"; dataset_name := "Urdu"; active := false |};
         {| dataset_lang := "hi"; dataset_name := "Hindi"; active := false |};
         {| dataset_lang := "fr"; dataset_name := "French"; active := false |} ] |}.

(** The same page with a blank text area. *)
Definition blank_page : dom := set_inputText_value "   " sample_page.

(** A translation as [translateText] returns it. *)
Definition sample_result : Translation :=
  {| out_translatedText := VString "Bonjour, le monde!";
     out_apiUsed := "Lingva Translate";
     detectedLanguage := VNull;
     detectedConfidence := VNull |}.

(** French is picked, the translation is asked for and arrives. *)
Definition sample_events : list ui_event :=
  [Language 3; Translate; Settled (Return sample_result)].

(** The page after a sequence of events that can happen. *)
Definition after_events (evs : list ui_event) (e : dom) : machine :=
  match run_events evs (started_on e) with
  | Some m => m
  | None => started_on e
  end.

Definition sample_machine : machine := after_events sample_events sample_page.

(** The same page after one more edit, after one more click on the copy
    button, and after the clipboard has refused that copy. *)
Definition sample_edited : machine :=
  after_events (sample_events ++ [Input "Hi"])%list sample_page.

Definition sample_copying : machine :=
  after_events (sample_events ++ [Copy])%list sample_page.

Definition sample_denied : machine :=
  after_events (sample_events ++ [Copy; Written (Throw (Error "denied"))])%list sample_page.

(* ===================================================================== *)
(** ** Properties *)
(* ===================================================================== *)

(** *** The language registry *)

Lemma supported_cases targetLang :
  supported targetLang = true ->
  targetLang = "en" \/ targetLang = "ur" \/ targetLang = "hi" \/ targetLang = "fr".
Proof.
  unfold supported. cbn [existsb].
  rewrite !orb_true_iff, !String.eqb_eq. intuition discriminate.
Qed.

Lemma supported_entry targetLang :
  supported targetLang = true ->
  exists nm rtl code,
    get_prop CONFIG.LANGUAGES targetLang = Return (CONFIG.language nm rtl code).
Proof.
  intros Hs. apply supported_cases in Hs.
  destruct Hs as [-> | [-> | [-> | ->]]]; do 3 eexists; reflexivity.
Qed.

(** Unfolding of the monad's operations. *)
Ltac unfold_monad :=
  unfold response_json, sleep, console_log, console_warn, emit, eval, throw, ret, bind, try_catch, fetch.

Section Properties.

Variable W : Type.
Variable net : W -> request -> reply * W.
Variable timer_first : W -> bool.

(** *** The adapters

    Case analysis of an adapter run: the reply, the status, the body and the
    field that is read. *)

Ltac reply_facts :=
  repeat match goal with
  | H : transport_fails _ |- _ => destruct H as [? H]
  | H : non_success _ |- _ => destruct H as [? [H ?]]
  | H : lacks_field _ _ |- _ => destruct H as [? [H ?]]
  | H : falsy_field _ _ |- _ => destruct H as [? [? [H [? ?]]]]
  | H : _ \/ _ |- _ => destruct H
  | H : Return _ = Return _ |- _ => injection H as H; subst
  | H : Some _ = Some _ |- _ => injection H as H; subst
  end.

Ltac read_field :=
  unfold field_of, expected_field, own_field in *; cbn [json settled fst] in *;
  repeat match goal with
  | H : ?x = _ |- context [?x] => rewrite H
  | H : ?x = _, H' : context [?x] |- _ => rewrite H in H'
  end.

Ltac settle_contract :=
  do 3 eexists; split; [reflexivity|];
  match goal with E : net _ _ = _ |- _ => rewrite E end;
  cbn [fst settled is_throw is_return negb];
  split; [split; [intros T | intros D]| intros F].

Ltac step_adapter :=
  cbn -[encodeURIComponent Encode lone_surrogate N.leb N.add decimal String.append
        CONFIG.LANGUAGES].

Ltac encode_text :=
  try match goal with
      | |- context [encodeURIComponent ?text] =>
          destruct (encodeURIComponent text) eqn:?; step_adapter
      end.

Ltac split_run :=
  repeat (match goal with
  | |- context [negb (ok ?r)] => destruct (ok r) eqn:?
  | |- context [match json ?r with _ => _ end] => destruct (json r) eqn:?
  | |- context [match assoc ?k ?props with _ => _ end] => destruct (assoc k props) eqn:?
  | |- context [get_prop ?a _] => is_var a; destruct a
  | |- context [truthy ?a] => destruct (truthy a) eqn:?
  end; step_adapter).

(** C6 (as amended).  For a supported target language, each of the three
    adapters fails exactly in these cases.  The text holds a lone surrogate
    and the adapter is Lingva's or MyMemory's: [encodeURIComponent] throws
    its [URIError] and no request is sent.  Otherwise the adapter sends
    exactly one request and fails exactly when the transport fails, the
    status is not in 200-299, the response has no expected translated-text
    field ([translation], [responseData.translatedText], [translatedText]; a
    body that is not JSON has none), or that field is present but falsy
    (empty string, [null], zero, [false]); if none of this happens it returns
    that field's value together with the provider's name. *)
Theorem adapters_fail_exactly_when (p : provider) (text targetLang : string) (st : state W) :
  supported targetLang = true -> fails_exactly_when net p text targetLang st.
Proof.
  intros Hs. destruct (@supported_entry _ Hs) as (nm & rtl & code & Hentry).
  unfold fails_exactly_when.
  destruct p; cbn [adapter_of unencodable];
    unfold translateWithLingva, translateWithMyMemory, translateWithLibreTranslate,
      encodeURIComponent;
    unfold_monad; rewrite Hentry; step_adapter;
    try (destruct (lone_surrogate text); step_adapter; [reflexivity|]);
    match goal with |- context [net ?w ?r] => destruct (net w r) as [[d [resp | e]] w'] eqn:E end;
    step_adapter; split_run.
  all: settle_contract.
  all: try discriminate; try reflexivity.
  all: try solve [left; eexists; reflexivity].
  all: try solve [right; left; eexists; split; [reflexivity | assumption]].
  all: try solve [right; right; left; eexists; split; [reflexivity | read_field; reflexivity]].
  all: try solve [right; right; right; do 2 eexists;
                  split; [reflexivity | split; [read_field; reflexivity | assumption]]].
  all: try solve [do 2 eexists; split; [reflexivity | split; [read_field; reflexivity | reflexivity]]].
  all: exfalso; reply_facts; cbn [settled] in *; reply_facts; read_field; congruence.
Qed.

(** Reading the registry never throws; reading [name] off an entry succeeds
    whenever reading [code] off it does. *)
Lemma languages_read targetLang :
  exists entry, get_prop CONFIG.LANGUAGES targetLang = Return entry.
Proof. eexists; reflexivity. Qed.

Lemma code_then_name entry code :
  get_prop entry "code" = Return code -> exists nm, get_prop entry "name" = Return nm.
Proof. destruct entry; cbn; intros H; try discriminate; eexists; reflexivity. Qed.

Ltac run_adapter p targetLang :=
  destruct p; cbn [adapter_of];
  unfold translateWithLingva, translateWithMyMemory, translateWithLibreTranslate;
  unfold_monad;
  let entry := fresh "entry" in
  let Hentry := fresh "Hentry" in
  destruct (languages_read targetLang) as [entry Hentry]; rewrite Hentry;
  step_adapter;
  destruct (get_prop entry "code") eqn:?; step_adapter;
  encode_text;
  try match goal with
      | |- context [net ?w ?r] => destruct (net w r) as [[? [? | ?]] ?] eqn:?
      end;
  step_adapter; split_run.

(** An adapter sends at most one request, without an abort signal, and
    invokes no adapter. *)
Lemma adapter_events p text targetLang (st : state W) :
  events_of (adapter_of net p text targetLang st) = []
  \/ exists req, events_of (adapter_of net p text targetLang st) = [Fetch req]
                 /\ signal req = None.
Proof.
  run_adapter p targetLang; cbn [events_of snd]; first [left; reflexivity | right; eexists; split; reflexivity].
Qed.

Lemma adapter_quiet p text targetLang (st : state W) :
  invocations (events_of (adapter_of net p text targetLang st)) = [].
Proof.
  destruct (adapter_events p text targetLang st) as [-> | [req [-> _]]]; reflexivity.
Qed.

(** A result carries the name of the provider that produced it. *)
Lemma adapter_named p text targetLang (st st1 : state W) r ev :
  adapter_of net p text targetLang st = (Return r, st1, ev) ->
  apiUsed r = provider_name p.
Proof.
  run_adapter p targetLang; intros H; inversion H; reflexivity.
Qed.

(** If an adapter returns, the registry entry has a readable [name]. *)
Lemma adapter_reads_name p text targetLang (st st1 : state W) r ev :
  adapter_of net p text targetLang st = (Return r, st1, ev) ->
  exists entry nm,
    get_prop CONFIG.LANGUAGES targetLang = Return entry
    /\ get_prop entry "name" = Return nm.
Proof.
  destruct (languages_read targetLang) as [entry Hentry].
  destruct (get_prop entry "code") as [code | e] eqn:Hcode.
  - destruct (@code_then_name _ _ Hcode) as [nm Hnm]. intros _. eauto.
  - destruct p; cbn [adapter_of];
      unfold translateWithLingva, translateWithMyMemory, translateWithLibreTranslate;
      unfold_monad; rewrite Hentry; step_adapter; rewrite Hcode; discriminate.
Qed.

(** *** The race and the loop

    A race that returns is a call that returned in time. *)
Lemma race_return {A} controller ms (p : M W A) (st st1 : state W) r ev :
  race_with_timeout timer_first controller ms p st = (Return r, st1, ev) ->
  p st = (Return r, st1, ev) /\ settles_first timer_first ms st st1 = true.
Proof.
  unfold race_with_timeout. destruct (p st) as [[r0 s0] e0].
  destruct (settles_first timer_first ms st s0) eqn:Hs; intros H; inversion H; subst.
  split; [reflexivity | assumption].
Qed.


(** One attempt, in terms of its raced call. *)
Lemma attempt_run total i (api : adapter W) text targetLang (st : state W) cfg :
  APIS_at i = Return cfg ->
  attempt timer_first total i api text targetLang st =
  match race_with_timeout timer_first i TIMEOUT (api text targetLang) st with
  | (Return r, st1, ev1) =>
      (Return {| out_translatedText := translatedText r;
                 out_apiUsed := apiUsed r;
                 detectedLanguage := VNull;
                 detectedConfidence := VNull |},
       st1,
       Console (LogTrying (i + 1) total (name cfg)) :: Invoke i
         :: (ev1 ++ [Console (LogSuccess (apiUsed r))])%list)
  | (Throw e, st1, ev1) =>
      (Throw e, st1, Console (LogTrying (i + 1) total (name cfg)) :: Invoke i :: ev1)
  end.
Proof.
  intros Hcfg. unfold attempt. unfold_monad. rewrite Hcfg.
  destruct (race_with_timeout timer_first i TIMEOUT (api text targetLang) st)
    as [[[r | e] st1] ev1]; cbn; rewrite ?app_nil_r; reflexivity.
Qed.

(** One iteration of the loop, in terms of its attempt. *)
Lemma loop_step total text targetLang i (api : adapter W) rest (st : state W) :
  translateText_loop timer_first total text targetLang i (api :: rest) st =
  match attempt timer_first total i api text targetLang st with
  | (Return a, st1, ev1) => (Return a, st1, ev1)
  | (Throw e, st1, ev1) =>
      if Nat.eqb i (total - 1)
      then (Throw all_failed, st1,
            (ev1 ++ [Console (WarnFailed (i + 1) (message e))])%list)
      else match translateText_loop timer_first total text targetLang (i + 1) rest st1 with
           | (r, st2, ev2) =>
               (r, st2, (ev1 ++ Console (WarnFailed (i + 1) (message e)) :: ev2)%list)
           end
  end.
Proof.
  cbn [translateText_loop]. unfold_monad.
  destruct (attempt timer_first total i api text targetLang st) as [[[a | e] st1] ev1];
    [reflexivity|].
  destruct (Nat.eqb i (total - 1)); [reflexivity|].
  destruct (translateText_loop timer_first total text targetLang (i + 1) rest st1)
    as [[r st2] ev2]; reflexivity.
Qed.

(** [translateText] is its two log lines followed by the loop, unless the
    read of the language name throws. *)
Lemma translateText_run text targetLang (st : state W) entry nm :
  get_prop CONFIG.LANGUAGES targetLang = Return entry ->
  get_prop entry "name" = Return nm ->
  translateText net timer_first text targetLang st =
  match translateText_loop timer_first (length (apis net)) text targetLang 0 (apis net) st with
  | (r, st1, ev) =>
      (r, st1, Console (LogTranslating (template nm)) :: Console (LogText text) :: ev)
  end.
Proof.
  intros Hentry Hname. unfold translateText. unfold_monad.
  rewrite Hentry, Hname.
  destruct (translateText_loop timer_first (length (apis net)) text targetLang 0 (apis net) st)
    as [[r st1] ev]; reflexivity.
Qed.

Lemma translateText_stops text targetLang (st : state W) entry e :
  get_prop CONFIG.LANGUAGES targetLang = Return entry ->
  get_prop entry "name" = Throw e ->
  translateText net timer_first text targetLang st = (Throw e, st, []).
Proof.
  intros Hentry Hname. unfold translateText. unfold_monad.
  rewrite Hentry, Hname. reflexivity.
Qed.

(** Unrolls the next iteration over the three adapters. *)
Ltac unroll :=
  unfold apis; cbn [length];
  repeat (rewrite loop_step; erewrite attempt_run by reflexivity).

Lemma invocations_app ev ev' :
  invocations (ev ++ ev') = (invocations ev ++ invocations ev')%list.
Proof.
  induction ev as [| [line | i | r | c] ev IH]; cbn; rewrite ?IH; reflexivity.
Qed.

Lemma requests_app ev ev' :
  requests (ev ++ ev') = (requests ev ++ requests ev')%list.
Proof.
  induction ev as [| [line | i | r | c] ev IH]; cbn; rewrite ?IH; reflexivity.
Qed.

(** Reads invocations and requests off a concatenation of events. *)
Ltac read_trace :=
  repeat (progress (rewrite ?invocations_app, ?requests_app; cbn [invocations requests app])).

(** The race adds no invocation and no request to those of the call. *)
Lemma race_events {A} controller ms (p : M W A) (st : state W) :
  let ev := events_of (race_with_timeout timer_first controller ms p st) in
  invocations ev = invocations (events_of (p st))
  /\ requests ev = requests (events_of (p st)).
Proof.
  unfold race_with_timeout. destruct (p st) as [[r st1] ev1].
  destruct (settles_first timer_first ms st st1); cbn [events_of snd].
  - split; reflexivity.
  - rewrite invocations_app, requests_app. cbn. rewrite !app_nil_r. split; reflexivity.
Qed.

Lemma raced_quiet i p text targetLang (st st1 : state W) r ev :
  raced timer_first i (adapter_of net p) text targetLang st = (r, st1, ev) ->
  invocations ev = [].
Proof.
  intros H. unfold raced in H.
  pose proof (race_events i TIMEOUT (adapter_of net p text targetLang) st) as [Hi _].
  rewrite H in Hi. cbn [events_of snd] in Hi. rewrite Hi. apply adapter_quiet.
Qed.

(** C1.  If the first adapter's raced call (Lingva, against the ten-second
    timer) succeeds with [r], then [translateText] returns [r]'s translated
    text under [r]'s provider name, which is "Lingva Translate"; adapter 0 is
    the only adapter invoked, and the only requests sent are those of that
    call: MyMemory and LibreTranslate are never invoked. *)
Theorem first_success_short_circuits text targetLang (st st1 : state W) r ev1 :
  raced timer_first 0 (translateWithLingva net) text targetLang st = (Return r, st1, ev1) ->
  exists ev,
    translateText net timer_first text targetLang st =
      (Return {| out_translatedText := translatedText r;
                 out_apiUsed := apiUsed r;
                 detectedLanguage := VNull;
                 detectedConfidence := VNull |}, st1, ev)
    /\ apiUsed r = "Lingva Translate"
    /\ invocations ev = [0%nat]
    /\ requests ev = requests ev1.
Proof.
  intros Hrace.
  pose proof (raced_quiet 0 Lingva _ _ _ Hrace) as Hq.
  unfold raced in Hrace.
  destruct (race_return _ _ _ _ Hrace) as [Hcall _].
  destruct (adapter_reads_name Lingva _ _ _ Hcall) as (entry & nm & Hentry & Hname).
  rewrite (translateText_run _ _ Hentry Hname).
  unroll. rewrite Hrace.
  eexists; split; [reflexivity|].
  split; [exact (adapter_named Lingva _ _ _ Hcall)|].
  cbn [invocations requests]. rewrite invocations_app, requests_app, Hq.
  cbn. rewrite app_nil_r. split; reflexivity.
Qed.

(** C4.  If the first adapter's raced call fails and the second adapter's
    (MyMemory), started where the first left the machine, succeeds with [r],
    then [translateText] returns [r]'s translated text under the provider
    name "MyMemory"; the adapters invoked are 0 and 1 in that order and the
    third adapter (LibreTranslate) is never invoked. *)
Theorem second_success_skips_third text targetLang (st st1 st2 : state W) e ev1 r ev2 :
  raced timer_first 0 (translateWithLingva net) text targetLang st = (Throw e, st1, ev1) ->
  raced timer_first 1 (translateWithMyMemory net) text targetLang st1 = (Return r, st2, ev2) ->
  exists ev,
    translateText net timer_first text targetLang st =
      (Return {| out_translatedText := translatedText r;
                 out_apiUsed := "MyMemory";
                 detectedLanguage := VNull;
                 detectedConfidence := VNull |}, st2, ev)
    /\ invocations ev = [0%nat; 1%nat]
    /\ requests ev = (requests ev1 ++ requests ev2)%list.
Proof.
  intros HA HB.
  pose proof (raced_quiet 0 Lingva _ _ _ HA) as HqA.
  pose proof (raced_quiet 1 MyMemory _ _ _ HB) as HqB.
  unfold raced in HA, HB.
  destruct (race_return _ _ _ _ HB) as [Hcall _].
  destruct (adapter_reads_name MyMemory _ _ _ Hcall) as (entry & nm & Hentry & Hname).
  rewrite (translateText_run _ _ Hentry Hname).
  unroll. rewrite HA. cbn [Nat.eqb Nat.sub Nat.add]. unroll. rewrite HB.
  rewrite (adapter_named MyMemory _ _ _ Hcall).
  eexists; split; [reflexivity|].
  cbn [invocations requests].
  rewrite !invocations_app, !requests_app. cbn [invocations requests].
  rewrite !invocations_app, !requests_app, HqA, HqB. cbn.
  rewrite !app_nil_r. split; reflexivity.
Qed.


(** C2.  For a supported target language, [translateText] throws the
    aggregate error exactly when all three raced adapter calls fail, whatever
    the three failures are; no other error is ever thrown to the caller; and
    the aggregate error carries a non-empty message. *)
Theorem aggregate_error_iff_all_fail text targetLang (st : state W) :
  supported targetLang = true ->
  let run := translateText net timer_first text targetLang st in
  (outcome_of run = Throw all_failed <-> all_adapters_fail net timer_first text targetLang st)
  /\ (forall e, outcome_of run = Throw e -> e = all_failed)
  /\ message all_failed <> "".
Proof.
  intros Hs. destruct (supported_entry _ Hs) as (nm & rtl & code & Hentry).
  cbv zeta. rewrite (translateText_run (nm := VString nm) _ _ Hentry eq_refl).
  unfold all_adapters_fail, raced. unroll.
  destruct (race_with_timeout timer_first 0 TIMEOUT (translateWithLingva net text targetLang) st)
    as [[[r0 | e0] st1] ev0] eqn:H0; cbn [Nat.eqb Nat.sub Nat.add outcome_of fst].
  { split; [split; [discriminate | intros (? & ? & ? & ? & ? & ? & ? & ? & ? & HA & _); discriminate]|].
    split; [discriminate | discriminate]. }
  unroll.
  destruct (race_with_timeout timer_first 1 TIMEOUT (translateWithMyMemory net text targetLang) st1)
    as [[[r1 | e1] st2] ev1] eqn:H1; cbn [Nat.eqb Nat.sub Nat.add outcome_of fst].
  { split; [split; [discriminate | intros (? & ? & ? & ? & ? & ? & ? & ? & ? & HA & HB & _)]|].
    - inversion HA; subst. rewrite H1 in HB. discriminate.
    - split; discriminate. }
  unroll.
  destruct (race_with_timeout timer_first 2 TIMEOUT (translateWithLibreTranslate net text targetLang) st2)
    as [[[r2 | e2] st3] ev2] eqn:H2; cbn [Nat.eqb Nat.sub Nat.add outcome_of fst].
  { split; [split; [discriminate | intros (? & ? & ? & ? & ? & ? & ? & ? & ? & HA & HB & HC)]|].
    - inversion HA; subst. rewrite H1 in HB. inversion HB; subst. rewrite H2 in HC. discriminate.
    - split; discriminate. }
  split; [split; [intros _ | reflexivity]|].
  - do 9 eexists. split; [reflexivity|]. split; [eassumption | eassumption].
  - split; [intros e He; inversion He; reflexivity | discriminate].
Qed.

(** Over a non-empty list of adapters whose last index is [total - 1], the
    loop returns or throws the aggregate error, in its last iteration. *)
Lemma loop_returns_or_fails total text targetLang :
  forall (rest : list (adapter W)) i (st : state W),
    rest <> [] -> (i + length rest)%nat = total ->
    let run := translateText_loop timer_first total text targetLang i rest st in
    (exists a, outcome_of run = Return a)
    \/ (outcome_of run = Throw all_failed
        /\ exists ev msg, events_of run = (ev ++ [Console (WarnFailed total msg)])%list).
Proof.
  induction rest as [| api rest IH]; intros i st Hne Hlen; [congruence|].
  cbv zeta. rewrite loop_step.
  destruct (attempt timer_first total i api text targetLang st) as [[[a | e] st1] ev1].
  - left. eexists; reflexivity.
  - cbn [length] in Hlen.
    destruct (Nat.eqb_spec i (total - 1)) as [Hlast | Hmore].
    + right. split; [reflexivity|]. cbn [events_of snd].
      replace (i + 1)%nat with total by lia. eauto.
    + assert (Hrest : rest <> []) by (destruct rest; [cbn in Hlen; lia | discriminate]).
      specialize (IH (i + 1)%nat st1 Hrest ltac:(lia)). cbv zeta in IH.
      destruct (translateText_loop timer_first total text targetLang (i + 1) rest st1)
        as [[r st2] ev2].
      cbn [outcome_of events_of fst snd] in *.
      destruct IH as [IH | [IH (ev & msg & Hev)]]; [left; exact IH | right].
      split; [exact IH|]. subst ev2.
      exists (ev1 ++ Console (WarnFailed (i + 1) (message e)) :: ev)%list, msg.
      rewrite <- app_assoc. reflexivity.
Qed.

(** C9.  The [throw] that follows the loop is unreachable: from every state
    the loop over the three adapters either returns a result or throws the
    aggregate error, and does so in its last iteration (the trace ends with
    the warning of attempt 3); neither the loop nor [translateText] ever
    throws 'Translation failed with all APIs'. *)
Theorem final_throw_unreachable text targetLang (st : state W) :
  let run := translateText_loop timer_first (length (apis net)) text targetLang 0 (apis net) st in
  outcome_of run <> Throw fell_through
  /\ ((exists a, outcome_of run = Return a)
      \/ (outcome_of run = Throw all_failed
          /\ exists ev msg,
               events_of run = (ev ++ [Console (WarnFailed (length (apis net)) msg)])%list))
  /\ outcome_of (translateText net timer_first text targetLang st) <> Throw fell_through.
Proof.
  cbv zeta.
  pose proof (@loop_returns_or_fails (length (apis net)) text targetLang (apis net) 0%nat st
                ltac:(discriminate) eq_refl) as H.
  cbv zeta in H.
  assert (Hloop : outcome_of (translateText_loop timer_first (length (apis net)) text
                                targetLang 0 (apis net) st) <> Throw fell_through).
  { destruct H as [[a Ha] | [Ha _]]; rewrite Ha; discriminate. }
  split; [exact Hloop|]. split; [exact H|].
  destruct (languages_read targetLang) as [entry Hentry].
  destruct (get_prop entry "name") as [nm | e] eqn:Hname.
  - rewrite (translateText_run _ _ Hentry Hname).
    destruct (translateText_loop timer_first (length (apis net)) text targetLang 0 (apis net) st)
      as [[r st1] ev]. exact Hloop.
  - erewrite translateText_stops by eassumption. cbn.
    destruct entry; cbn in Hname; try discriminate; inversion Hname; discriminate.
Qed.


(** *** Timeouts *)

Lemma apis_quiet : Forall (@quiet W) (apis net).
Proof.
  repeat constructor; intros text targetLang st.
  - exact (adapter_quiet Lingva text targetLang st).
  - exact (adapter_quiet MyMemory text targetLang st).
  - exact (adapter_quiet LibreTranslate text targetLang st).
Qed.

Lemma APIS_at_defined i :
  (i < length CONFIG.APIS)%nat -> exists cfg, APIS_at i = Return cfg.
Proof.
  intros Hi. unfold APIS_at.
  destruct (nth_error CONFIG.APIS i) as [cfg |] eqn:Hnth; [eauto|].
  apply nth_error_None in Hnth. lia.
Qed.

(** A call that takes longer than the timer loses the race. *)
Lemma late_loses ms (st st1 : state W) :
  ms < now st1 - now st -> settles_first timer_first ms st st1 = false.
Proof.
  intros Hlate. unfold settles_first.
  destruct (N.ltb_spec (now st1 - now st) ms); [lia|].
  destruct (N.eqb_spec (now st1 - now st) ms); [lia|]. reflexivity.
Qed.

Lemma late_call_times_out {A} controller (p : M W A) (st st1 : state W) r ev1 :
  p st = (r, st1, ev1) ->
  TIMEOUT < now st1 - now st ->
  race_with_timeout timer_first controller TIMEOUT p st =
  (Throw (Error "Request timeout"), timed_out controller st st1,
   (ev1 ++ [Aborted controller])%list).
Proof.
  intros Hcall Hlate. unfold race_with_timeout.
  rewrite Hcall, late_loses by exact Hlate. reflexivity.
Qed.

(** From index [i] the loop invokes adapters [i], [i + 1], ... in order, each
    once, and at least one when there is one. *)
Lemma loop_invocations total text targetLang :
  forall (rest : list (adapter W)) i (st : state W),
    Forall (@quiet W) rest ->
    (i + length rest <= length CONFIG.APIS)%nat ->
    exists n,
      invocations (events_of (translateText_loop timer_first total text targetLang i rest st))
      = seq i n
      /\ (rest <> [] -> (1 <= n)%nat).
Proof.
  induction rest as [| api rest IH]; intros i st Hq Hlen.
  - exists 0%nat. split; [reflexivity | congruence].
  - cbn [length] in Hlen. inversion Hq as [| ? ? Hapi Hrest]; subst.
    destruct (@APIS_at_defined i ltac:(lia)) as [cfg Hcfg].
    rewrite loop_step. erewrite attempt_run by eassumption.
    pose proof (race_events i TIMEOUT (api text targetLang) st) as [Hinv _].
    rewrite (Hapi text targetLang st) in Hinv.
    destruct (race_with_timeout timer_first i TIMEOUT (api text targetLang) st)
      as [[[r | e] st1] ev1]; cbn [events_of snd] in Hinv.
    + exists 1%nat. cbn [events_of snd invocations].
      rewrite invocations_app, Hinv. split; [reflexivity | lia].
    + destruct (Nat.eqb i (total - 1)).
      * exists 1%nat. cbn [events_of snd].
        rewrite invocations_app. cbn [invocations]. rewrite Hinv.
        split; [reflexivity | lia].
      * destruct (IH (i + 1)%nat st1 Hrest ltac:(lia)) as (n & Hn & _).
        destruct (translateText_loop timer_first total text targetLang (i + 1) rest st1)
          as [[r st2] ev2].
        cbn [events_of snd] in *. exists (S n).
        rewrite invocations_app. cbn [invocations]. rewrite Hinv, Hn.
        cbn [app seq]. replace (i + 1)%nat with (S i) by lia.
        split; [reflexivity | lia].
Qed.

(** C3.  For every adapter attempt, if the adapter's call takes longer than
    ten seconds, then whatever the call would have settled to (a success
    included) the attempt fails with "Request timeout" at the ten-second
    mark, the loop proceeds with the next adapter in order when there is one
    (and throws the aggregate error when there is none), and the timed-out
    adapter is invoked exactly once: it is not retried. *)
Theorem timed_out_attempt_falls_back i (api : adapter W) text targetLang
    (st st1 : state W) r ev1 :
  nth_error (apis net) i = Some api ->
  api text targetLang st = (r, st1, ev1) ->
  TIMEOUT < now st1 - now st ->
  falls_back net timer_first i api text targetLang st st1 ev1.
Proof.
  intros Hnth Hcall Hlate. unfold falls_back. cbv zeta.
  split; [unfold raced; eapply late_call_times_out; eassumption|].
  assert (Hi : (i < 3)%nat).
  { change 3%nat with (length (apis net)). apply nth_error_Some. rewrite Hnth. discriminate. }
  assert (Hquiet : invocations ev1 = []).
  { pose proof apis_quiet as Hq. rewrite Forall_forall in Hq.
    specialize (Hq api (nth_error_In _ _ Hnth) text targetLang st).
    rewrite Hcall in Hq. exact Hq. }
  assert (Hnext : forall rest : list (adapter W),
             rest <> [] -> Forall (@quiet W) rest -> (i + 1 + length rest <= 3)%nat ->
             let after := translateText_loop timer_first 3 text targetLang (i + 1) rest
                            (timed_out i st st1) in
             hd_error (invocations (events_of after)) = Some (i + 1)%nat
             /\ ~ In i (invocations (events_of after))).
  { intros rest Hne Hq Hlen. cbv zeta.
    destruct (@loop_invocations 3 text targetLang rest (i + 1)%nat (timed_out i st st1) Hq Hlen)
      as (n & Hn & Hpos).
    rewrite Hn. specialize (Hpos Hne). split.
    - destruct n; [lia | reflexivity].
    - rewrite in_seq. lia. }
  pose proof apis_quiet as Hq. unfold apis in Hq.
  repeat match goal with H : Forall _ (_ :: _) |- _ => inversion H; clear H; subst end.
  destruct i as [| [| [| i]]]; [| | | lia]; cbn in Hnth; inversion Hnth; subst api;
    unfold apis; cbn [length skipn nth_error Nat.add];
    rewrite loop_step; erewrite attempt_run by reflexivity;
    erewrite late_call_times_out by eassumption; cbn [Nat.eqb Nat.sub Nat.add].
  - destruct (Hnext [translateWithMyMemory net; translateWithLibreTranslate net])
      as [Hhd Hnot]; [discriminate | repeat constructor; assumption | cbn; lia |].
    cbn [Nat.add] in Hhd, Hnot.
    destruct (translateText_loop timer_first 3 text targetLang 1
                [translateWithMyMemory net; translateWithLibreTranslate net]
                (timed_out 0 st st1)) as [[r' st3] ev3].
    cbn [outcome_of state_of events_of fst snd] in *.
    eexists (_ ++ [_])%list. rewrite <- app_assoc.
    split; [reflexivity|]. split; [|split; [exact Hhd | exact Hnot]].
    read_trace. rewrite Hquiet. reflexivity.
  - destruct (Hnext [translateWithLibreTranslate net])
      as [Hhd Hnot]; [discriminate | repeat constructor; assumption | cbn; lia |].
    cbn [Nat.add] in Hhd, Hnot.
    destruct (translateText_loop timer_first 3 text targetLang 2
                [translateWithLibreTranslate net]
                (timed_out 1 st st1)) as [[r' st3] ev3].
    cbn [outcome_of state_of events_of fst snd] in *.
    eexists (_ ++ [_])%list. rewrite <- app_assoc.
    split; [reflexivity|]. split; [|split; [exact Hhd | exact Hnot]].
    read_trace. rewrite Hquiet. reflexivity.
  - cbn [outcome_of state_of events_of fst snd]. split; [reflexivity|]. split; [reflexivity|].
    read_trace. rewrite Hquiet. reflexivity.
Qed.


(** *** Repeatability against a stable provider set *)

(** Steadiness is preserved by the operations of the monad. *)

Ltac open_steady :=
  unfold steady, outcome_of, state_of, events_of; cbn [fst snd].

Lemma steady_ret {A} (a : A) : steady (ret (W := W) a).
Proof. open_steady. unfold ret. cbn. intros; repeat split; lia. Qed.

Lemma steady_throw {A} e : steady (throw (W := W) (A := A) e).
Proof. open_steady. unfold throw. cbn. intros; repeat split; lia. Qed.

Lemma steady_eval {A} (o : outcome A) : steady (eval (W := W) o).
Proof. open_steady. unfold eval. cbn. intros; repeat split; lia. Qed.

Lemma steady_emit e : steady (emit (W := W) e).
Proof. open_steady. unfold emit. cbn. intros; repeat split; lia. Qed.

Lemma steady_sleep ms : steady (sleep (W := W) ms).
Proof. open_steady. unfold sleep. cbn. intros; repeat split; lia. Qed.

Lemma steady_bind {A B} (m : M W A) (k : A -> M W B) :
  steady m -> (forall a, steady (k a)) -> steady (bind m k).
Proof.
  intros Hm Hk st st'. specialize (Hm st st'). revert Hm. open_steady. unfold bind.
  destruct (m st) as [[[a | e] s] ev], (m st') as [[[a' | e'] s'] ev'];
    cbn [fst snd]; intros (Hr & He & Ht & Hle); try discriminate.
  - injection Hr as <-. subst ev'.
    specialize (Hk a s s'). revert Hk. open_steady.
    destruct (k a s) as [[r2 s2] ev2], (k a s') as [[r2' s2'] ev2']; cbn [fst snd].
    intros (Hr2 & He2 & Ht2 & Hle2). subst. repeat split; lia.
  - injection Hr as <-. repeat split; assumption.
Qed.

Lemma steady_try_catch {A} (m : M W A) (handler : exn -> M W A) :
  steady m -> (forall e, steady (handler e)) -> steady (try_catch m handler).
Proof.
  intros Hm Hk st st'. specialize (Hm st st'). revert Hm. open_steady. unfold try_catch.
  destruct (m st) as [[[a | e] s] ev], (m st') as [[[a' | e'] s'] ev'];
    cbn [fst snd]; intros (Hr & He & Ht & Hle); try discriminate.
  - repeat split; assumption.
  - injection Hr as <-. subst ev'.
    specialize (Hk e s s'). revert Hk. open_steady.
    destruct (handler e s) as [[r2 s2] ev2], (handler e s') as [[r2' s2'] ev2']; cbn [fst snd].
    intros (Hr2 & He2 & Ht2 & Hle2). subst. repeat split; lia.
Qed.

(** With replies that do not depend on the network state, the primitives
    that talk to the network are steady, and so is everything built from
    them. *)
Section Stable.

Hypothesis Hstable : stable net timer_first.

Lemma steady_fetch req : steady (fetch net req).
Proof.
  intros st st'. open_steady. unfold fetch.
  destruct (Hstable (world st) (world st') req) as [Hrep _].
  destruct (net (world st) req) as [rep w1], (net (world st') req) as [rep' w1'].
  cbn [fst] in Hrep. subst rep'. cbn [fst snd now]. repeat split; lia.
Qed.

Lemma steady_response_json r : steady (response_json (W := W) r).
Proof.
  unfold response_json. apply steady_bind; [apply steady_sleep | intros; apply steady_eval].
Qed.

Lemma steady_race {A} controller ms (p : M W A) :
  steady p -> steady (race_with_timeout timer_first controller ms p).
Proof.
  intros Hp st st'. specialize (Hp st st'). revert Hp. open_steady.
  unfold race_with_timeout, settles_first.
  destruct (Hstable (world st) (world st') {| method := ""; url := ""; headers := [];
                                              body_json := None; signal := None |})
    as [_ Htie].
  destruct (p st) as [[r s] ev], (p st') as [[r' s'] ev']; cbn [fst snd].
  intros (Hr & He & Ht & Hle). subst r' ev'. rewrite <- Htie.
  assert (Hle' : now st' <= now s') by lia.
  replace (now s' - now st') with (now s - now st) by lia.
  destruct ((now s - now st <? ms) || ((now s - now st =? ms) && negb (timer_first (world st))));
    cbn [fst snd now]; repeat split; lia.
Qed.

Ltac steady_steps :=
  repeat first
    [ apply steady_response_json
    | apply steady_bind; [| intros ?]
    | apply steady_eval | apply steady_ret | apply steady_throw
    | apply steady_fetch | apply steady_emit | apply steady_sleep
    | match goal with |- steady (if ?b then _ else _) => destruct b end ].

Lemma steady_adapter p text targetLang : steady (adapter_of net p text targetLang).
Proof.
  destruct p; cbn [adapter_of];
    unfold translateWithLingva, translateWithMyMemory, translateWithLibreTranslate;
    steady_steps.
Qed.

Lemma steady_attempt total i p text targetLang :
  steady (attempt timer_first total i (adapter_of net p) text targetLang).
Proof.
  unfold attempt, console_log. steady_steps.
  apply steady_race, steady_adapter.
Qed.

Lemma steady_loop total text targetLang :
  forall ps i,
    steady (translateText_loop timer_first total text targetLang i
              (map (adapter_of net) ps)).
Proof.
  induction ps as [| p ps IH]; intros i; cbn [map translateText_loop].
  - apply steady_throw.
  - apply steady_try_catch; [apply steady_attempt|].
    intros e. unfold console_warn. steady_steps. apply IH.
Qed.

Lemma steady_translateText text targetLang :
  steady (translateText net timer_first text targetLang).
Proof.
  unfold translateText, console_log. steady_steps.
  exact (steady_loop 3 text targetLang [Lingva; MyMemory; LibreTranslate] 0).
Qed.

(** C7.  Against a stable provider set, calling [translateText] a second
    time with the same text and target language, in the state the first call
    left, yields the same outcome (the same result or the same error) and the
    same events. *)
Theorem translateText_repeatable text targetLang (st : state W) :
  let first := translateText net timer_first text targetLang st in
  let second := translateText net timer_first text targetLang (state_of first) in
  outcome_of second = outcome_of first /\ events_of second = events_of first.
Proof.
  cbv zeta.
  destruct (steady_translateText text targetLang
              (state_of (translateText net timer_first text targetLang st)) st)
    as (Hr & He & _).
  split; assumption.
Qed.

End Stable.


(** *** Unknown target languages and the request of the third adapter *)

(** C10 (as amended).  If [targetLang] is none of the four supported codes
    and is not a property name that the registry object inherits from
    [Object.prototype], then [translateText] throws a [TypeError] before any
    adapter is invoked: nothing is logged, no request is sent and the machine
    is unchanged. *)
Theorem unknown_language_is_rejected text targetLang (st : state W) :
  supported targetLang = false ->
  inherited targetLang = VUndefined ->
  rejected_before_any_adapter net timer_first text targetLang st.
Proof.
  intros Hs Hinh. unfold supported in Hs. cbn [existsb] in Hs.
  rewrite !orb_false_iff in Hs. destruct Hs as (Hen & Hur & Hhi & Hfr & _).
  unfold rejected_before_any_adapter. cbv zeta.
  erewrite translateText_stops.
  - cbn [outcome_of state_of events_of fst snd]. split; [eexists; reflexivity|].
    split; reflexivity.
  - reflexivity.
  - cbn [CONFIG.LANGUAGES assoc].
    rewrite (String.eqb_sym "en"), Hen, (String.eqb_sym "ur"), Hur,
      (String.eqb_sym "hi"), Hhi, (String.eqb_sym "fr"), Hfr, Hinh.
    reflexivity.
Qed.

(** C5.  What the LibreTranslate adapter sends for a supported target
    language: one POST to the endpoint, with a JSON content type and the body
    [{q: text, source: "en", target: targetLang, format: "text"}].  The
    source language it declares is "en", not "auto". *)
Theorem libretranslate_request text targetLang (st : state W) :
  supported targetLang = true ->
  requests (events_of (translateWithLibreTranslate net text targetLang st)) =
  [ {| method := "POST";
       url := "https://libretranslate.com/translate";
       headers := [("Content-Type", "application/json")];
       body_json := Some (VObject [ ("q", VString text);
                                    ("source", VString "en");
                                    ("target", VString targetLang);
                                    ("format", VString "text") ]);
       signal := None |} ].
Proof.
  intros Hs. apply supported_cases in Hs.
  destruct Hs as [-> | [-> | [-> | ->]]];
    unfold translateWithLibreTranslate; unfold_monad;
    match goal with
    | |- context [get_prop CONFIG.LANGUAGES ?l] =>
        let v := eval vm_compute in (get_prop CONFIG.LANGUAGES l) in
        change (get_prop CONFIG.LANGUAGES l) with v
    end;
    step_adapter;
    match goal with |- context [net ?w ?r] => destruct (net w r) as [[? [? | ?]] ?] end;
    step_adapter; split_run; reflexivity.
Qed.

End Properties.

(* ===================================================================== *)
(** ** The properties at concrete inputs *)
(* ===================================================================== *)

(** The scenarios of the specification. *)

Example encodeURIComponent_hello :
  encodeURIComponent "Hello, world!" = Return "Hello%2C%20world!".
Proof. reflexivity. Qed.

Example encodeURIComponent_half_pair :
  encodeURIComponent half_pair = Throw (URIError "URI malformed").
Proof. reflexivity. Qed.

Example scenario_half_pair :
  let net := scripted bonjour mymemory_bonjour libre_bonjour in
  translateWithLingva net half_pair "fr" boot = (Throw (URIError "URI malformed"), boot, [])
  /\ translateWithMyMemory net half_pair "fr" boot
     = (Throw (URIError "URI malformed"), boot, [])
  /\ out_apiUsed_of (translateText net timer_wins half_pair "fr" boot)
     = Some "LibreTranslate".
Proof. cbv zeta. repeat split. Qed.

Example scenario_first_provider :
  outcome_of (translateText (scripted bonjour mymemory_bonjour libre_bonjour)
                timer_wins "Hello, world!" "fr" boot)
  = Return {| out_translatedText := VString "Bonjour, le monde!";
              out_apiUsed := "Lingva Translate";
              detectedLanguage := VNull;
              detectedConfidence := VNull |}.
Proof. reflexivity. Qed.

Example scenario_third_provider :
  outcome_of (translateText (scripted server_error server_error libre_bonjour)
                timer_wins "Hello, world!" "fr" boot)
  = Return {| out_translatedText := VString "Bonjour";
              out_apiUsed := "LibreTranslate";
              detectedLanguage := VNull;
              detectedConfidence := VNull |}.
Proof. reflexivity. Qed.

Example scenario_all_fail :
  outcome_of (translateText (scripted server_error server_error server_error)
                timer_wins "Hello, world!" "fr" boot)
  = Throw (Error "All translation APIs failed. Please try again later.").
Proof. reflexivity. Qed.

(** C1 at a concrete input: Lingva answers "Bonjour, le monde!" in 120 ms. *)
Lemma first_success_short_circuits_witness :
  let net := scripted bonjour mymemory_bonjour libre_bonjour in
  let call := raced timer_wins 0 (translateWithLingva net) "Hello, world!" "fr" boot in
  let r := {| translatedText := VString "Bonjour, le monde!";
              apiUsed := "Lingva Translate" |} in
  call = (Return r, state_of call, events_of call)
  /\ exists ev,
      translateText net timer_wins "Hello, world!" "fr" boot =
        (Return {| out_translatedText := translatedText r;
                   out_apiUsed := apiUsed r;
                   detectedLanguage := VNull;
                   detectedConfidence := VNull |}, state_of call, ev)
      /\ apiUsed r = "Lingva Translate"
      /\ invocations ev = [0%nat]
      /\ requests ev = requests (events_of call).
Proof.
  cbv zeta. split; [reflexivity|].
  apply (@first_success_short_circuits N (scripted bonjour mymemory_bonjour libre_bonjour)
           timer_wins "Hello, world!" "fr" boot).
  reflexivity.
Defined.

(** C2 at a concrete input: every provider answers HTTP 500. *)
Lemma aggregate_error_iff_all_fail_witness :
  let net := scripted server_error server_error server_error in
  let run := translateText net timer_wins "Hello" "fr" boot in
  supported "fr" = true
  /\ (outcome_of run = Throw all_failed <-> all_adapters_fail net timer_wins "Hello" "fr" boot)
  /\ (forall e, outcome_of run = Throw e -> e = all_failed)
  /\ message all_failed <> "".
Proof.
  cbv zeta. split; [reflexivity|].
  apply (@aggregate_error_iff_all_fail N (scripted server_error server_error server_error)
           timer_wins "Hello" "fr" boot).
  reflexivity.
Defined.

(** C3 at a concrete input: Lingva's answer, a correct one, takes twenty
    seconds. *)
Lemma timed_out_attempt_falls_back_witness :
  let net := scripted too_late mymemory_bonjour libre_bonjour in
  let call := translateWithLingva net "Hello" "fr" boot in
  nth_error (apis net) 0 = Some (translateWithLingva net)
  /\ is_return (outcome_of call) = true
  /\ TIMEOUT < now (state_of call) - now boot
  /\ falls_back net timer_wins 0 (translateWithLingva net) "Hello" "fr" boot
       (state_of call) (events_of call).
Proof.
  cbv zeta. split; [reflexivity|]. split; [reflexivity|]. split; [reflexivity|].
  apply (@timed_out_attempt_falls_back N (scripted too_late mymemory_bonjour libre_bonjour)
           timer_wins 0%nat _ "Hello" "fr" boot _
           (outcome_of (translateWithLingva (scripted too_late mymemory_bonjour libre_bonjour)
                          "Hello" "fr" boot))).
  - reflexivity.
  - reflexivity.
  - reflexivity.
Defined.

(** C4 at a concrete input: Lingva answers HTTP 500, MyMemory answers
    "Bonjour". *)
Lemma second_success_skips_third_witness :
  let net := scripted server_error mymemory_bonjour libre_bonjour in
  let a := raced timer_wins 0 (translateWithLingva net) "Hello" "fr" boot in
  let b := raced timer_wins 1 (translateWithMyMemory net) "Hello" "fr" (state_of a) in
  let r := {| translatedText := VString "Bonjour"; apiUsed := "MyMemory" |} in
  a = (Throw (Error "HTTP 500"), state_of a, events_of a)
  /\ b = (Return r, state_of b, events_of b)
  /\ exists ev,
      translateText net timer_wins "Hello" "fr" boot =
        (Return {| out_translatedText := translatedText r;
                   out_apiUsed := "MyMemory";
                   detectedLanguage := VNull;
                   detectedConfidence := VNull |}, state_of b, ev)
      /\ invocations ev = [0%nat; 1%nat]
      /\ requests ev = (requests (events_of a) ++ requests (events_of b))%list.
Proof.
  cbv zeta. split; [reflexivity|]. split; [reflexivity|].
  eapply (@second_success_skips_third N (scripted server_error mymemory_bonjour libre_bonjour)
            timer_wins "Hello" "fr" boot).
  - reflexivity.
  - reflexivity.
Defined.

(** C5 at a concrete input: the body sent for "Hello, world!" to French
    declares the source language "en". *)
Lemma libretranslate_request_witness :
  supported "fr" = true
  /\ requests (events_of (translateWithLibreTranslate
                            (scripted bonjour mymemory_bonjour libre_bonjour)
                            "Hello, world!" "fr" boot)) =
     [ {| method := "POST";
          url := "https://libretranslate.com/translate";
          headers := [("Content-Type", "application/json")];
          body_json := Some (VObject [ ("q", VString "Hello, world!");
                                       ("source", VString "en");
                                       ("target", VString "fr");
                                       ("format", VString "text") ]);
          signal := None |} ].
Proof.
  split; [reflexivity|].
  apply (@libretranslate_request N (scripted bonjour mymemory_bonjour libre_bonjour)
           "Hello, world!" "fr" boot).
  reflexivity.
Defined.

(** C6, as the specification words it, fails: Lingva answers 200 with
    [{"translation": ""}]; the field is there, the transport and the status
    are fine, and the adapter throws 'No translation in response'. *)
Lemma empty_translation_is_rejected :
  let net := scripted empty_translation mymemory_bonjour libre_bonjour in
  outcome_of (translateWithLingva net "Hello" "fr" boot)
    = Throw (Error "No translation in response")
  /\ ~ fails_exactly_as_specified net Lingva "Hello" "fr" boot.
Proof.
  cbv zeta. split; [reflexivity|].
  intros (r & st1 & req & Hrun & Hiff & _).
  vm_compute in Hrun. inversion Hrun; subst. clear Hrun.
  destruct Hiff as [Hiff _]. specialize (Hiff eq_refl).
  destruct Hiff as [[e H] | [[resp [H Hok]] | [resp [H Hfield]]]];
    vm_compute in H; inversion H; subst.
  - vm_compute in Hok. discriminate.
  - vm_compute in Hfield. discriminate.
Qed.

(** C6 (as amended) at the same input. *)
Lemma adapters_fail_exactly_when_witness :
  supported "fr" = true
  /\ fails_exactly_when (scripted empty_translation mymemory_bonjour libre_bonjour)
       Lingva "Hello" "fr" boot.
Proof.
  split; [reflexivity|].
  apply (@adapters_fail_exactly_when N
           (scripted empty_translation mymemory_bonjour libre_bonjour)
           Lingva "Hello" "fr" boot).
  reflexivity.
Defined.

(** C7 at a concrete input: a scripted network is stable. *)
Lemma translateText_repeatable_witness :
  let net := scripted server_error mymemory_bonjour libre_bonjour in
  let first := translateText net timer_wins "Hello" "fr" boot in
  let second := translateText net timer_wins "Hello" "fr" (state_of first) in
  stable net timer_wins
  /\ outcome_of second = outcome_of first
  /\ events_of second = events_of first.
Proof.
  cbv zeta.
  assert (Hstable : stable (scripted server_error mymemory_bonjour libre_bonjour) timer_wins).
  { intros w w' req. split; reflexivity. }
  split; [exact Hstable|].
  apply (@translateText_repeatable N (scripted server_error mymemory_bonjour libre_bonjour)
           timer_wins Hstable "Hello" "fr" boot).
Defined.

(** C8 at a concrete input: Lingva's answer takes twenty seconds.  The timer
    fires at ten seconds and [controller.abort()] runs, MyMemory answers 80
    ms later, and when [translateText] returns the request to Lingva is
    still in flight: no [fetch] was given the controller's signal, so the
    abort cancels nothing. *)
Theorem timed_out_request_keeps_running :
  let net := scripted too_late mymemory_bonjour libre_bonjour in
  let run := translateText net timer_wins "Hello" "fr" boot in
  let lingva_request :=
    {| method := "GET"; url := "https://lingva.ml/api/v1/auto/fr/Hello";
       headers := []; body_json := None; signal := None |} in
  out_apiUsed_of run = Some "MyMemory"
  /\ In (Aborted 0) (events_of run)
  /\ now (state_of run) = 10080
  /\ In lingva_request (in_flight (state_of run)).
Proof.
  vm_compute. repeat split; repeat (first [left; reflexivity | right]).
Qed.

(** C10, as stated, fails: "constructor" is not a supported code, yet the
    registry object inherits a property of that name, reading its [name]
    does not throw, and the first adapter sends a request (with the target
    code "undefined") and its answer is returned. *)
Lemma inherited_key_reaches_network :
  let net := scripted bonjour mymemory_bonjour libre_bonjour in
  let run := translateText net timer_wins "Hello" "constructor" boot in
  supported "constructor" = false
  /\ out_apiUsed_of run = Some "Lingva Translate"
  /\ requests (events_of run) =
       [ {| method := "GET";
            url := "https://lingva.ml/api/v1/auto/undefined/Hello";
            headers := []; body_json := None; signal := None |} ]
  /\ ~ rejected_before_any_adapter net timer_wins "Hello" "constructor" boot.
Proof.
  cbv zeta. split; [reflexivity|]. split; [reflexivity|]. split; [reflexivity|].
  intros [[msg H] _]. vm_compute in H. discriminate.
Qed.

(** C10 (as amended) at a concrete input: the unknown code "de". *)
Lemma unknown_language_is_rejected_witness :
  supported "de" = false
  /\ inherited "de" = VUndefined
  /\ rejected_before_any_adapter (scripted bonjour mymemory_bonjour libre_bonjour)
       timer_wins "Hello" "de" boot.
Proof.
  split; [reflexivity|]. split; [reflexivity|].
  apply (@unknown_language_is_rejected N (scripted bonjour mymemory_bonjour libre_bonjour)
           timer_wins "Hello" "de" boot).
  - reflexivity.
  - reflexivity.
Defined.

(* ===================================================================== *)
(** ** The requests and the loop: what every run has in common *)
(* ===================================================================== *)

(** The two hexadecimal digits of a byte are unreserved characters. *)
Lemma hex_digits_unreserved c :
  uriUnreserved (hex_digit (N_of_ascii c / 16)) = true
  /\ uriUnreserved (hex_digit (N_of_ascii c mod 16)) = true.
Proof. destruct c as [[] [] [] [] [] [] [] []]; split; reflexivity. Qed.

(** An encoded text is made of unreserved characters and [%]. *)
Lemma Encode_unreserved s c :
  In c (list_ascii_of_string (Encode s)) ->
  uriUnreserved c = true \/ c = "%"%char.
Proof.
  induction s as [| c0 rest IH]; [intros []|].
  cbn [Encode]. destruct (uriUnreserved c0) eqn:Hc0; cbn [list_ascii_of_string In].
  - intros [<- | Hin]; [left; exact Hc0 | exact (IH Hin)].
  - destruct (hex_digits_unreserved c0) as [Hhi Hlo].
    intros [<- | [<- | [<- | Hin]]]; [right; reflexivity | left; exact Hhi | left; exact Hlo
                                     | exact (IH Hin)].
Qed.

(** Reading every [%XX] back gives the text that was encoded. *)
Lemma unescape_escape s : unescape (Encode s) = s.
Proof.
  induction s as [| c rest IH]; [reflexivity|].
  destruct c as [[] [] [] [] [] [] [] []]; cbn; rewrite IH; reflexivity.
Qed.

(** Two texts with the same encoding are the same text. *)
Lemma Encode_injective s1 s2 : Encode s1 = Encode s2 -> s1 = s2.
Proof.
  intros Heq. rewrite <- (unescape_escape s1), <- (unescape_escape s2), Heq. reflexivity.
Qed.

(** [encodeURIComponent] returns the encoding of the texts without a lone
    surrogate. *)
Lemma encodeURIComponent_returns s encoded :
  encodeURIComponent s = Return encoded ->
  lone_surrogate s = false /\ encoded = Encode s.
Proof.
  unfold encodeURIComponent. destruct (lone_surrogate s); [discriminate|].
  intros H. injection H as <-. split; reflexivity.
Qed.

Section Fallback.

Variable W : Type.
Variable net : W -> request -> reply * W.
Variable timer_first : W -> bool.

(** A raced call settles no later than its timer. *)
Lemma race_within {A} controller ms (p : M W A) (st : state W) :
  now (state_of (race_with_timeout timer_first controller ms p st)) <= now st + ms.
Proof.
  unfold race_with_timeout, settles_first. destruct (p st) as [[r st1] ev1].
  destruct ((now st1 - now st <? ms) || ((now st1 - now st =? ms) && negb (timer_first (world st))))
    eqn:Hfirst; cbn [state_of fst snd now]; [| lia].
  apply orb_true_iff in Hfirst. destruct Hfirst as [Hlt | Heq].
  - apply N.ltb_lt in Hlt. lia.
  - apply andb_true_iff in Heq. destruct Heq as [Heq _]. apply N.eqb_eq in Heq. lia.
Qed.

(** One attempt of the loop takes at most the timeout. *)
Lemma attempt_within total i (api : adapter W) text targetLang (st : state W) :
  now (state_of (attempt timer_first total i api text targetLang st)) <= now st + TIMEOUT.
Proof.
  unfold attempt, console_log, emit, eval, ret, bind.
  destruct (APIS_at i) as [cfg | e]; [| cbn; lia].
  pose proof (race_within i TIMEOUT (api text targetLang) st) as Hrace.
  destruct (race_with_timeout timer_first i TIMEOUT (api text targetLang) st)
    as [[[r | e] st1] ev1]; exact Hrace.
Qed.

(** The loop takes at most the timeout for each adapter left. *)
Lemma loop_within total text targetLang :
  forall (rest : list (adapter W)) i (st : state W),
    now (state_of (translateText_loop timer_first total text targetLang i rest st))
    <= now st + N.of_nat (length rest) * TIMEOUT.
Proof.
  induction rest as [| api rest IH]; intros i st; [cbn; lia|].
  rewrite loop_step.
  pose proof (attempt_within total i api text targetLang st) as Hattempt.
  destruct (attempt timer_first total i api text targetLang st) as [[[a | e] st1] ev1];
    cbn [state_of fst snd] in *; cbn [length]; [lia|].
  destruct (Nat.eqb i (total - 1)); cbn [state_of fst snd]; [lia|].
  specialize (IH (i + 1)%nat st1).
  destruct (translateText_loop timer_first total text targetLang (i + 1) rest st1)
    as [[r st2] ev2]; cbn [state_of fst snd] in *. lia.
Qed.

(** X3 ([translateText] is bounded in time): whatever the providers do,
    [translateText] settles, returning or throwing, within three timeouts
    (30000 ms) of the moment it was called. *)
Theorem translateText_settles_within_three_timeouts text targetLang (st : state W) :
  now (state_of (translateText net timer_first text targetLang st)) <= now st + 3 * TIMEOUT.
Proof.
  destruct (languages_read targetLang) as [entry Hentry].
  destruct (get_prop entry "name") as [nm | e] eqn:Hname.
  - rewrite (translateText_run net timer_first text st Hentry Hname).
    pose proof (loop_within (length (apis net)) text targetLang (apis net) 0 st) as Hloop.
    destruct (translateText_loop timer_first (length (apis net)) text targetLang 0 (apis net) st)
      as [[r st1] ev]; cbn [state_of fst snd length apis] in *. lia.
  - erewrite translateText_stops by eassumption. cbn [state_of fst snd]. lia.
Qed.

(** An adapter sends at most one request. *)
Lemma adapter_sends_at_most_one p text targetLang (st : state W) :
  (List.length (requests (events_of (adapter_of net p text targetLang st))) <= 1)%nat.
Proof.
  destruct (adapter_events net p text targetLang st) as [-> | [req [-> _]]]; cbn; lia.
Qed.

(** The loop invokes the adapters left in order, without a gap, and stops at
    the one that returns; what it returns carries that adapter's name. *)
Lemma loop_trace total text targetLang :
  forall (ps : list provider) i (st : state W),
    (i + List.length ps <= List.length CONFIG.APIS)%nat ->
    let run := translateText_loop timer_first total text targetLang i
                 (map (adapter_of net) ps) st in
    exists n,
      (n <= List.length ps)%nat
      /\ invocations (events_of run) = seq i n
      /\ (List.length (requests (events_of run)) <= n)%nat
      /\ match outcome_of run with
         | Return r =>
             (1 <= n)%nat
             /\ option_map provider_name (nth_error ps (n - 1)) = Some (out_apiUsed r)
         | Throw _ => True
         end.
Proof.
  induction ps as [| p ps IH]; intros i st Hlen; cbv zeta.
  - exists 0%nat. cbn. repeat split; lia.
  - cbn [map List.length] in *.
    destruct (@APIS_at_defined i ltac:(lia)) as [cfg Hcfg].
    rewrite loop_step. erewrite attempt_run by eassumption.
    pose proof (race_events timer_first i TIMEOUT (adapter_of net p text targetLang) st)
      as [Hinv Hreq].
    cbv zeta in Hinv, Hreq. rewrite adapter_quiet in Hinv.
    pose proof (adapter_sends_at_most_one p text targetLang st) as Hone.
    rewrite <- Hreq in Hone.
    destruct (race_with_timeout timer_first i TIMEOUT (adapter_of net p text targetLang) st)
      as [[[r | e] st1] ev1] eqn:Hrace; cbn [events_of snd] in Hinv, Hone.
    + exists 1%nat. cbn [events_of outcome_of fst snd invocations requests].
      rewrite invocations_app, requests_app, Hinv, length_app. cbn.
      pose proof Hrace as Hcall. apply race_return in Hcall. destruct Hcall as [Hcall _].
      apply adapter_named in Hcall. rewrite Hcall.
      repeat split; lia.
    + destruct (Nat.eqb i (total - 1)).
      * exists 1%nat. cbn [events_of outcome_of fst snd].
        rewrite invocations_app, requests_app, length_app. cbn [invocations requests].
        rewrite Hinv. cbn. repeat split; lia.
      * destruct (IH (i + 1)%nat st1 ltac:(lia)) as (n & Hn & Hseq & Hreqs & Hres).
        destruct (translateText_loop timer_first total text targetLang (i + 1)
                    (map (adapter_of net) ps) st1) as [[r st2] ev2].
        cbn [events_of outcome_of fst snd] in *. exists (S n).
        rewrite invocations_app, requests_app, length_app. cbn [invocations requests].
        rewrite Hinv, Hseq. cbn [List.app seq]. replace (i + 1)%nat with (S i) by lia.
        split; [lia|]. split; [reflexivity|]. split; [lia|].
        destruct r as [r |]; [| exact I]. destruct Hres as [Hpos Hname].
        split; [lia|]. destruct n as [| n]; [lia|].
        cbn [Nat.sub nth_error] in *. rewrite Nat.sub_0_r in *. exact Hname.
Qed.

(** X2 (the adapters are tried in order, each at most once): a run of
    [translateText] invokes the adapters 0, 1, ..., n-1 for some n <= 3, in
    that order and each once, sends at most n requests, and when it returns
    the result names the adapter invoked last, the entry n-1 of
    [CONFIG.APIS]. *)
Theorem translateText_invokes_in_order text targetLang (st : state W) :
  let run := translateText net timer_first text targetLang st in
  exists n,
    (n <= 3)%nat
    /\ invocations (events_of run) = seq 0 n
    /\ (List.length (requests (events_of run)) <= n)%nat
    /\ match outcome_of run with
       | Return r =>
           (1 <= n)%nat
           /\ option_map name (nth_error CONFIG.APIS (n - 1)) = Some (out_apiUsed r)
       | Throw _ => True
       end.
Proof.
  cbv zeta.
  destruct (languages_read targetLang) as [entry Hentry].
  destruct (get_prop entry "name") as [nm | e] eqn:Hname.
  - rewrite (translateText_run net timer_first text st Hentry Hname).
    destruct (loop_trace (List.length (apis net)) text targetLang
                [Lingva; MyMemory; LibreTranslate] 0 st ltac:(cbn; lia))
      as (n & Hn & Hseq & Hreqs & Hres).
    change (map (adapter_of net) [Lingva; MyMemory; LibreTranslate]) with (apis net) in *.
    destruct (translateText_loop timer_first (List.length (apis net)) text targetLang 0
                (apis net) st) as [[r st1] ev].
    cbn [events_of outcome_of fst snd invocations requests List.length] in *.
    exists n. split; [exact Hn|]. split; [exact Hseq|]. split; [exact Hreqs|].
    destruct r as [r |]; [| exact I]. destruct Hres as [Hpos Hnm]. split; [exact Hpos|].
    destruct n as [| [| [| [| n]]]]; try lia; cbn in *; exact Hnm.
  - erewrite translateText_stops by eassumption.
    exists 0%nat. cbn. repeat split; lia.
Qed.

(** X4 (the last provider is the last resort): if the raced calls of Lingva
    and MyMemory throw and that of LibreTranslate returns [r], then
    [translateText] returns the text of [r] attributed to LibreTranslate, with
    both detection fields [null], after invoking the three adapters in order;
    the requests sent are those of the three calls. *)
Theorem third_success_after_two_failures text targetLang
    (st st1 st2 st3 : state W) e0 ev0 e1 ev1 r ev2 :
  raced timer_first 0 (translateWithLingva net) text targetLang st = (Throw e0, st1, ev0) ->
  raced timer_first 1 (translateWithMyMemory net) text targetLang st1 = (Throw e1, st2, ev1) ->
  raced timer_first 2 (translateWithLibreTranslate net) text targetLang st2
    = (Return r, st3, ev2) ->
  exists ev,
    translateText net timer_first text targetLang st =
      (Return {| out_translatedText := translatedText r;
                 out_apiUsed := "LibreTranslate";
                 detectedLanguage := VNull;
                 detectedConfidence := VNull |}, st3, ev)
    /\ invocations ev = [0%nat; 1%nat; 2%nat]
    /\ requests ev = (requests ev0 ++ requests ev1 ++ requests ev2)%list.
Proof.
  intros HA HB HC.
  pose proof HA as HqA. apply (raced_quiet net timer_first 0 Lingva text targetLang st) in HqA.
  pose proof HB as HqB. apply (raced_quiet net timer_first 1 MyMemory text targetLang st1) in HqB.
  pose proof HC as HqC. apply (raced_quiet net timer_first 2 LibreTranslate text targetLang st2) in HqC.
  unfold raced in HA, HB, HC.
  pose proof HC as Hcall. apply race_return in Hcall. destruct Hcall as [Hcall _].
  pose proof Hcall as Hread. apply (adapter_reads_name net LibreTranslate text targetLang st2) in Hread.
  destruct Hread as (entry & nm & Hentry & Hname).
  rewrite (translateText_run net timer_first text st Hentry Hname).
  unfold apis; cbn [List.length].
  rewrite loop_step; erewrite attempt_run by reflexivity.
  rewrite HA. cbn [Nat.eqb Nat.sub Nat.add].
  rewrite loop_step; erewrite attempt_run by reflexivity.
  rewrite HB. cbn [Nat.eqb Nat.sub Nat.add].
  rewrite loop_step; erewrite attempt_run by reflexivity.
  rewrite HC.
  apply (adapter_named net LibreTranslate text targetLang st2) in Hcall. rewrite Hcall.
  eexists; split; [reflexivity|].
  repeat (progress (rewrite ?invocations_app, ?requests_app; cbn [invocations requests List.app])).
  rewrite HqA, HqB, HqC. cbn. rewrite !app_nil_r. split; reflexivity.
Qed.

(** A text that can be encoded goes into one GET request. *)
Lemma lingva_request text targetLang (st : state W) :
  supported targetLang = true ->
  lone_surrogate text = false ->
  requests (events_of (translateWithLingva net text targetLang st)) =
    [ {| method := "GET";
         url := "https://lingva.ml/api/v1/auto/" ++ targetLang ++ "/" ++ Encode text;
         headers := []; body_json := None; signal := None |} ].
Proof.
  intros Hs Hlone. apply supported_cases in Hs.
  destruct Hs as [-> | [-> | [-> | ->]]];
    unfold translateWithLingva, encodeURIComponent, bind, eval, fetch, throw, ret,
      response_json, sleep;
    rewrite Hlone;
    cbn -[Encode decimal N.leb N.add];
    match goal with |- context [net ?w ?r] => destruct (net w r) as [[? [? | ?]] ?] end;
    cbn -[Encode decimal N.leb N.add];
    repeat (match goal with
            | |- context [negb (ok ?r)] => destruct (ok r)
            | |- context [match json ?r with _ => _ end] => destruct (json r)
            | |- context [match assoc ?k ?props with _ => _ end] => destruct (assoc k props)
            | |- context [get_prop ?a _] => is_var a; destruct a
            | |- context [truthy ?a] => destruct (truthy a)
            end; cbn -[Encode decimal N.leb N.add]); reflexivity.
Qed.

Lemma mymemory_request text targetLang (st : state W) :
  supported targetLang = true ->
  lone_surrogate text = false ->
  requests (events_of (translateWithMyMemory net text targetLang st)) =
    [ {| method := "GET";
         url := "https://api.mymemory.translated.net/get?q=" ++ Encode text
                ++ "&langpair=en|" ++ targetLang;
         headers := []; body_json := None; signal := None |} ].
Proof.
  intros Hs Hlone. apply supported_cases in Hs.
  destruct Hs as [-> | [-> | [-> | ->]]];
    unfold translateWithMyMemory, encodeURIComponent, bind, eval, fetch, throw, ret,
      response_json, sleep;
    rewrite Hlone;
    cbn -[Encode decimal N.leb N.add];
    match goal with |- context [net ?w ?r] => destruct (net w r) as [[? [? | ?]] ?] end;
    cbn -[Encode decimal N.leb N.add];
    repeat (match goal with
            | |- context [negb (ok ?r)] => destruct (ok r)
            | |- context [match json ?r with _ => _ end] => destruct (json r)
            | |- context [match assoc ?k ?props with _ => _ end] => destruct (assoc k props)
            | |- context [get_prop ?a _] => is_var a; destruct a
            | |- context [truthy ?a] => destruct (truthy a)
            end; cbn -[Encode decimal N.leb N.add]); reflexivity.
Qed.

(** A text that cannot be encoded makes both adapters throw before they send
    anything. *)
Lemma unencodable_text_is_refused text targetLang (st : state W) :
  supported targetLang = true ->
  lone_surrogate text = true ->
  translateWithLingva net text targetLang st = (Throw (URIError "URI malformed"), st, [])
  /\ translateWithMyMemory net text targetLang st
     = (Throw (URIError "URI malformed"), st, []).
Proof.
  intros Hs Hlone. apply supported_cases in Hs.
  split; destruct Hs as [-> | [-> | [-> | ->]]];
    unfold translateWithLingva, translateWithMyMemory, encodeURIComponent, bind, eval;
    rewrite Hlone; reflexivity.
Qed.

(** X1 (the two GET requests): for a supported target language and a text
    that [encodeURIComponent] encodes, the Lingva adapter calls [fetch]
    exactly once, with the method GET and the URL string
    [https://lingva.ml/api/v1/auto/<target>/<encoded text>], and the MyMemory
    adapter exactly once, with the method GET and the URL string
    [https://api.mymemory.translated.net/get?q=<encoded text>&langpair=en|<target>],
    both without headers, body or abort signal; the encoded text consists of
    unreserved characters and [%] only, and no other text has the same
    encoding.  For a text that [encodeURIComponent] refuses, one holding a
    lone surrogate, both adapters throw its [URIError], send no request and
    leave the machine as it is. *)
Theorem get_request_urls text targetLang (st : state W) :
  supported targetLang = true ->
  match encodeURIComponent text with
  | Return encoded =>
      lone_surrogate text = false
      /\ requests (events_of (translateWithLingva net text targetLang st)) =
         [ {| method := "GET";
              url := "https://lingva.ml/api/v1/auto/" ++ targetLang ++ "/" ++ encoded;
              headers := []; body_json := None; signal := None |} ]
      /\ requests (events_of (translateWithMyMemory net text targetLang st)) =
         [ {| method := "GET";
              url := "https://api.mymemory.translated.net/get?q=" ++ encoded
                     ++ "&langpair=en|" ++ targetLang;
              headers := []; body_json := None; signal := None |} ]
      /\ (forall c, In c (list_ascii_of_string encoded) ->
                    uriUnreserved c = true \/ c = "%"%char)
      /\ (forall other, encodeURIComponent other = Return encoded -> other = text)
  | Throw error =>
      lone_surrogate text = true
      /\ error = URIError "URI malformed"
      /\ translateWithLingva net text targetLang st = (Throw error, st, [])
      /\ translateWithMyMemory net text targetLang st = (Throw error, st, [])
  end.
Proof.
  intros Hs. unfold encodeURIComponent at 1.
  destruct (lone_surrogate text) eqn:Hlone.
  - split; [reflexivity|]. split; [reflexivity|].
    exact (@unencodable_text_is_refused text targetLang st Hs Hlone).
  - split; [reflexivity|].
    split; [exact (@lingva_request text targetLang st Hs Hlone)|].
    split; [exact (@mymemory_request text targetLang st Hs Hlone)|].
    split; [apply Encode_unreserved|].
    intros other Hother. apply encodeURIComponent_returns in Hother.
    destruct Hother as [_ Hother]. symmetry in Hother.
    exact (@Encode_injective other text Hother).
Qed.

End Fallback.

(* ===================================================================== *)
(** ** The character counter *)
(* ===================================================================== *)

(** The number of binary digits, as the library of numbers counts it. *)
Lemma digits2_size p : digits2_pos p = Pos.size p.
Proof. induction p; cbn; congruence. Qed.

(** Shifting left adds digits. *)
Lemma digits2_shift p k : digits2_pos (Pos.iter xO p k) = (digits2_pos p + k)%positive.
Proof.
  induction k using Pos.peano_ind.
  - cbn. rewrite Pos.add_1_r. reflexivity.
  - rewrite Pos.iter_succ. cbn [digits2_pos]. rewrite IHk. lia.
Qed.

(** A positive number lies between the powers of two its size names. *)
Lemma size_bounds p :
  (2 ^ (Z.pos (Pos.size p) - 1) <= Z.pos p < 2 ^ Z.pos (Pos.size p))%Z.
Proof.
  pose proof (Pos.size_gt p) as Hgt. pose proof (Pos.size_le p) as Hle.
  assert (Hpow : forall n, Z.pos (2 ^ n) = (2 ^ Z.pos n)%Z) by (intros; rewrite Pos2Z.inj_pow; reflexivity).
  split.
  - apply Pos2Z.pos_le_pos in Hle. rewrite Hpow in Hle.
    replace (Z.pos (Pos.size p)) with (Z.succ (Z.pos (Pos.size p) - 1)) in Hle by lia.
    rewrite Z.pow_succ_r in Hle by lia. lia.
  - apply Pos2Z.pos_lt_pos in Hgt. rewrite Hpow in Hgt. exact Hgt.
Qed.

(** An integer of at most 53 bits is a binary64 number: its bits, shifted to
    the top of the mantissa. *)
Lemma Number_exact p :
  (Z.pos (digits2_pos p) <= 53)%Z ->
  Number (Npos p) =
  S754_finite false
    match (Z.pos (digits2_pos p) - 53)%Z with
    | Zneg k => Pos.iter xO p k
    | _ => p
    end
    (Z.pos (digits2_pos p) - 53).
Proof.
  intros Hd. unfold Number, binary_normalize, binary_round, shl_align.
  cbn [Z.of_N].
  assert (Hfexp : forall e, (-52 <= e)%Z -> fexp 53 1024 (53 + e) = e)
    by (intros e He; unfold fexp, emin; lia).
  replace (Z.pos (digits2_pos p) + 0)%Z with (53 + (Z.pos (digits2_pos p) - 53))%Z by lia.
  rewrite Hfexp by lia. rewrite Z.sub_0_r.
  assert (Haux : forall m e, digits2_pos m = 53%positive -> (-52 <= e <= 0)%Z ->
            binary_round_aux 53 1024 false (Z.pos m) e loc_Exact = S754_finite false m e).
  { intros m e Hm He. unfold binary_round_aux, shr_fexp, Zdigits2. rewrite Hm.
    rewrite Hfexp by lia. rewrite Z.sub_diag.
    cbn [shr shr_record_of_loc shr_m loc_of_shr_record round_nearest_even Zdigits2].
    rewrite Hm, Hfexp by lia. rewrite Z.sub_diag. cbn [shr shr_record_of_loc shr_m].
    destruct (Z.leb_spec e (1024 - 53)); [reflexivity | lia]. }
  destruct (Z.pos (digits2_pos p) - 53)%Z as [| k | k] eqn:Hk; try lia.
  - apply Haux; lia.
  - apply Haux; [| lia]. rewrite digits2_shift. lia.
Qed.

(** [CONFIG.MAX_CHARS * 0.9], computed in binary64, is exactly 4500. *)
Lemma threshold_value :
  SFmul 53 1024 (Number CONFIG.MAX_CHARS) literal_0_9 =
  S754_finite false 4947802324992000 (-40).
Proof. vm_compute. reflexivity. Qed.

(** The comparison of binary64 numbers in [updateCharCounter] is the
    comparison of the count with 4500. *)
Lemma threshold_compare count :
  count < 2 ^ 53 ->
  SFltb (SFmul 53 1024 (Number CONFIG.MAX_CHARS) literal_0_9) (Number count) = (4500 <? count).
Proof.
  intros Hcount. rewrite threshold_value. destruct count as [| p]; [reflexivity|].
  pose proof (size_bounds p) as [Hlow Hhigh].
  assert (Hd : (Z.pos (digits2_pos p) <= 53)%Z).
  { rewrite digits2_size. destruct (Z.le_gt_cases (Z.pos (Pos.size p)) 53) as [H | H]; [exact H|].
    assert (2 ^ 53 <= 2 ^ (Z.pos (Pos.size p) - 1))%Z by (apply Z.pow_le_mono_r; lia).
    lia. }
  rewrite (@Number_exact p Hd). rewrite digits2_size in *.
  unfold SFltb, SFcompare. unfold N.ltb. cbn [N.compare].
  destruct (Z.compare_spec (-40) (Z.pos (Pos.size p) - 53)) as [Heq | Hlt | Hgt].
  - replace (Z.pos (Pos.size p) - 53)%Z with (Z.neg 40) by lia.
    cbn [Pos.iter Pos.compare_cont]. reflexivity.
  - assert (2 ^ 13 <= 2 ^ (Z.pos (Pos.size p) - 1))%Z by (apply Z.pow_le_mono_r; lia).
    assert (Hp : (4500 < p)%positive) by lia.
    apply Pos.compare_lt_iff in Hp. rewrite Hp. reflexivity.
  - assert (2 ^ Z.pos (Pos.size p) <= 2 ^ 12)%Z by (apply Z.pow_le_mono_r; lia).
    assert (Hp : (p < 4500)%positive) by lia.
    apply Pos.compare_gt_iff in Hp. rewrite Hp. reflexivity.
Qed.

(** X7 (the counter turns red above 4500): for a count a string length can
    take (below 2^53), [updateCharCounter] writes the count in decimal and
    colours it [var(--error-color)] exactly when the count exceeds 4500, else
    [var(--text-muted)]: the binary64 product [5000 * 0.9] is exactly 4500
    and the comparison is exact. *)
Theorem counter_warns_above_ninety_percent count e :
  count < 2 ^ 53 ->
  charCount_textContent (updateCharCounter count e) = decimal count
  /\ charCount_color (updateCharCounter count e) =
     (if 4500 <? count then "var(--error-color)" else "var(--text-muted)").
Proof.
  intros Hcount. unfold updateCharCounter. cbv zeta. rewrite (@threshold_compare count Hcount).
  destruct (4500 <? count); split; reflexivity.
Qed.

(* ===================================================================== *)
(** ** The page *)
(* ===================================================================== *)

(** [showState] shows the panel it is asked for and no other; an unknown
    name hides all four. *)
Theorem showState_shows_at_most_one state e :
  shown (showState state e) =
  if existsb (String.eqb state) ["loading"; "empty"; "error"; "output"]
  then [state] else [].
Proof.
  unfold showState. cbn [existsb].
  destruct (String.eqb_spec state "loading") as [-> | _]; [reflexivity|].
  destruct (String.eqb_spec state "empty") as [-> | _]; [reflexivity|].
  destruct (String.eqb_spec state "error") as [-> | _]; [reflexivity|].
  destruct (String.eqb_spec state "output") as [-> | _]; reflexivity.
Qed.

(** What [Object.prototype] holds are functions. *)
Lemma Object_prototype_functions key v :
  assoc key Object_prototype = Some v -> exists fname, v = VFunction fname.
Proof.
  unfold Object_prototype. cbn [assoc].
  repeat match goal with
         | |- context [String.eqb ?a key] => destruct (String.eqb a key)
         end; intros H; inversion H; eauto.
Qed.

(** [applyRTL] in closed form. *)
Lemma applyRTL_run langCode e :
  applyRTL langCode e =
  Return (set_outputText_rtl
            (match langCode with Some code => String.eqb code "ur" | None => false end) e).
Proof.
  destruct langCode as [code |]; [| reflexivity].
  unfold applyRTL. cbn [property_key get_prop CONFIG.LANGUAGES assoc].
  rewrite (String.eqb_sym code "ur").
  destruct (String.eqb_spec "en" code) as [<- | _]; [reflexivity|].
  destruct (String.eqb_spec "ur" code) as [<- | _]; [reflexivity|].
  destruct (String.eqb_spec "hi" code) as [<- | _]; [reflexivity|].
  destruct (String.eqb_spec "fr" code) as [<- | _]; [reflexivity|].
  unfold inherited.
  destruct (String.eqb code "__proto__"); [reflexivity|].
  destruct (assoc code Object_prototype) as [v |] eqn:Hv; [| reflexivity].
  destruct (Object_prototype_functions _ Hv) as [fname ->]. reflexivity.
Qed.

(** X5 ([applyRTL] never throws and marks Urdu only): for every language
    code, a registered one, one that [Object.prototype] knows, [null] or any
    other string, [applyRTL] returns, and the output has the class [rtl]
    afterwards exactly when the code is [ur]; nothing else on the page
    changes. *)
Theorem applyRTL_marks_urdu_only langCode e :
  exists e',
    applyRTL langCode e = Return e'
    /\ outputText_rtl e' =
       match langCode with Some code => String.eqb code "ur" | None => false end
    /\ set_outputText_rtl (outputText_rtl e) e' = e.
Proof.
  rewrite applyRTL_run. eexists. split; [reflexivity|]. split; [reflexivity|].
  destruct e; reflexivity.
Qed.

(** Among distinct codes, a code occurs once or not at all. *)
Lemma count_matching (code : string) (langs : list string) :
  NoDup langs ->
  List.length (filter (fun l => String.eqb l code) langs) =
  if existsb (String.eqb code) langs then 1%nat else 0%nat.
Proof.
  induction langs as [| l langs IH]; intros Hnd; [reflexivity|].
  inversion Hnd as [| ? ? Hnotin Hnd']; subst. cbn [filter existsb].
  rewrite (String.eqb_sym code l).
  destruct (String.eqb_spec l code) as [-> | Hne]; cbn [orb length].
  - rewrite (IH Hnd').
    destruct (existsb (String.eqb code) langs) eqn:Hex; [| reflexivity].
    apply existsb_exists in Hex. destruct Hex as (x & Hin & Heq).
    apply String.eqb_eq in Heq. subst x. contradiction.
  - exact (IH Hnd').
Qed.

(** X6 ([updateLanguageButtons] marks one button): on a page whose buttons
    carry distinct codes, [updateLanguageButtons] leaves codes and names as
    they are, makes a button active exactly when its code is the one given,
    and so leaves one active button if the code is on the page and none
    otherwise. *)
Theorem updateLanguageButtons_marks_selected langCode e :
  NoDup (map dataset_lang (langButtons e)) ->
  let after := langButtons (updateLanguageButtons langCode e) in
  map dataset_lang after = map dataset_lang (langButtons e)
  /\ map dataset_name after = map dataset_name (langButtons e)
  /\ map active after = map (fun btn => String.eqb (dataset_lang btn) langCode) (langButtons e)
  /\ List.length (filter active after) =
     if existsb (String.eqb langCode) (map dataset_lang (langButtons e)) then 1%nat else 0%nat.
Proof.
  intros Hnd. cbv zeta. unfold updateLanguageButtons. cbn [langButtons set_langButtons].
  rewrite !map_map. cbn [dataset_lang dataset_name active].
  repeat split.
  rewrite <- (count_matching langCode Hnd).
  induction (langButtons e) as [| btn btns IH]; [reflexivity|].
  cbn [map filter active dataset_lang].
  destruct (String.eqb (dataset_lang btn) langCode); cbn [length];
    rewrite IH; try reflexivity; inversion Hnd; assumption.
Qed.

(** A byte that starts a character counts at least one code unit. *)
Lemma length_from_positive c rest awaited :
  1 <= length_from awaited (String c rest) \/
  (exists k, awaited = S k /\ continuation c = true).
Proof.
  cbn [length_from]. unfold code_units.
  destruct awaited as [| k].
  - left. destruct (240 <=? N_of_ascii c); lia.
  - destruct (continuation c); [right; eauto | left].
    destruct (240 <=? N_of_ascii c); lia.
Qed.

(** Only the empty string has length 0. *)
Lemma length_utf16_empty s : length_utf16 s = 0 <-> s = "".
Proof.
  split; [| intros ->; reflexivity].
  destruct s as [| c rest]; [reflexivity|]. unfold length_utf16.
  destruct (length_from_positive c rest 0) as [H | (k & Hk & _)]; [lia | discriminate].
Qed.

Ltac run_handler :=
  unfold u_try, u_bind, u_ret, u_read, u_page, u_call, u_eval,
    set_selectedTargetLang, set_isTranslating, with_elements; cbn [fst snd].

(** A text that is not empty reaches [CONFIG.MIN_CHARS]. *)
Lemma min_chars_reached text :
  text <> "" -> (length_utf16 text <? CONFIG.MIN_CHARS) = false.
Proof.
  intros Hne. apply N.ltb_ge. unfold CONFIG.MIN_CHARS.
  destruct (N.eq_dec (length_utf16 text) 0) as [H0 | H0]; [| lia].
  apply length_utf16_empty in H0. contradiction.
Qed.

(** X8 (what the translate click checks): the click handler calls
    [translateText] exactly when the trimmed input is not empty, a language is
    selected and no translation is running, and then with the trimmed input
    and the selected code; when it does not, either a translation is running
    and the page is untouched, or the page shows [Please enter some text to
    translate.] for a blank input, or [Please select a target language.] for
    a missing selection (the message about [CONFIG.MIN_CHARS] is never
    shown); the handler never throws before the call. *)
Theorem translate_click_validation s :
  let value := inputText_value (elements s) in
  let run := click_sync s in
  (forall text targetLang,
      fst run = Return (Some (text, targetLang)) <->
      text = trim value /\ text <> "" /\ selectedTargetLang s = Some targetLang
      /\ targetLang <> "" /\ isTranslating s = false)
  /\ (fst run = Return None ->
      (snd run = s /\ isTranslating s = true)
      \/ (trim value = ""
          /\ elements (snd run) = showError "Please enter some text to translate." (elements s))
      \/ (unselected (selectedTargetLang s) = true
          /\ elements (snd run) = showError "Please select a target language." (elements s)))
  /\ (exists r, fst run = Return r).
Proof.
  cbv zeta. unfold click_sync. run_handler.
  destruct (String.eqb_spec (trim (inputText_value (elements s))) "") as [Hblank | Htext].
  { cbn [fst snd elements]. split; [| split; [intros _; right; left; split; [assumption | reflexivity] | eauto]].
    intros text targetLang. split; [discriminate | intros (-> & Hne & _); contradiction]. }
  rewrite (min_chars_reached Htext).
  destruct (selectedTargetLang s) as [code |] eqn:Hsel; cbn [unselected property_key].
  2:{ cbn [fst snd elements]. split; [| split; [intros _; right; right; split; reflexivity | eauto]].
      intros text targetLang. split; [discriminate | intros (_ & _ & H & _); discriminate]. }
  destruct (String.eqb_spec code "") as [-> | Hcode].
  { cbn [fst snd elements]. split; [| split; [intros _; right; right; split; reflexivity | eauto]].
    intros text targetLang. split; [discriminate | intros (_ & _ & H & Hne & _)].
    inversion H; subst. contradiction. }
  destruct (isTranslating s) eqn:Hbusy; cbn [fst snd].
  { split; [| split; [intros _; left; split; reflexivity | eauto]].
    intros text targetLang. split; [discriminate | intros (_ & _ & _ & _ & H); discriminate]. }
  split; [| split; [discriminate | eauto]].
  intros text targetLang. split.
  - intros H. inversion H; subst. repeat split; auto.
  - intros (-> & _ & H & _). inversion H; subst. reflexivity.
Qed.

Ltac page :=
  cbn [fst snd elements selectedTargetLang isTranslating with_elements
       ui pending writing timers panels showError
       inputText_value outputText_textContent outputText_show outputText_rtl
       loadingState_show emptyState_show errorState_show errorText_textContent
       charCount_textContent charCount_color translateBtn_disabled copyBtn_disabled
       copyBtn_innerHTML copyBtn_background detectedLang_textContent langButtons
       set_inputText_value set_outputText_textContent set_outputText_show
       set_outputText_rtl set_loadingState_show set_emptyState_show
       set_errorState_show set_errorText_textContent set_charCount_textContent
       set_charCount_color set_translateBtn_disabled set_copyBtn_disabled
       set_copyBtn_innerHTML set_copyBtn_background set_detectedLang_textContent
       set_langButtons].

(** The handlers in closed form. *)
Lemma on_input_run value s :
  on_input value s =
  (Return tt,
   with_elements
     (let e1 := updateCharCounter (length_utf16 value)
                  (set_inputText_value value (elements s)) in
      if outputText_show e1 then set_copyBtn_disabled true (showState "empty" e1) else e1)
     s).
Proof.
  destruct s as [e sel busy]. unfold on_input. run_handler. page.
  destruct (outputText_show _); reflexivity.
Qed.

Lemma on_clear_run s :
  on_clear s =
  (Return tt,
   with_elements
     (set_detectedLang_textContent ""
        (set_copyBtn_disabled true
           (showState "empty"
              (updateCharCounter 0 (set_inputText_value "" (elements s))))))
     s).
Proof. destruct s as [e sel busy]. reflexivity. Qed.

Lemma on_language_click_run i s :
  on_language_click i s =
  match nth_error (langButtons (elements s)) i with
  | None => (Return tt, s)
  | Some btn =>
      (Return tt,
       {| elements :=
            set_translateBtn_disabled
              (negb (CONFIG.MIN_CHARS <=? length_utf16 (trim (inputText_value (elements s)))))
              (updateLanguageButtons (dataset_lang btn) (elements s));
          selectedTargetLang := Some (dataset_lang btn);
          isTranslating := isTranslating s |})
  end.
Proof.
  destruct s as [e sel busy]. unfold on_language_click. run_handler. page.
  destruct (nth_error (langButtons e) i); reflexivity.
Qed.

Lemma click_sync_run s :
  click_sync s =
  let text := trim (inputText_value (elements s)) in
  if String.eqb text ""
  then (Return None,
        with_elements (showError "Please enter some text to translate." (elements s)) s)
  else if unselected (selectedTargetLang s)
  then (Return None,
        with_elements (showError "Please select a target language." (elements s)) s)
  else if isTranslating s then (Return None, s)
  else (Return (Some (text, property_key (selectedTargetLang s))),
        {| elements := showState "loading"
                         (set_copyBtn_disabled true
                            (set_translateBtn_disabled true (elements s)));
           selectedTargetLang := selectedTargetLang s;
           isTranslating := true |}).
Proof.
  destruct s as [e sel busy]. cbv zeta. unfold click_sync. run_handler. page.
  destruct (String.eqb_spec (trim (inputText_value e)) "") as [Hblank | Htext]; [reflexivity|].
  rewrite (min_chars_reached Htext). page.
  destruct (unselected sel); [reflexivity|]. destruct busy; reflexivity.
Qed.

Lemma click_resume_run awaited s :
  click_resume awaited s =
  (Return tt,
   {| elements :=
        set_translateBtn_disabled false
          match awaited with
          | Throw err => showError (message err) (elements s)
          | Return result =>
              let shownOutput :=
                set_copyBtn_disabled false
                  (showState "output"
                     (set_outputText_rtl
                        (match selectedTargetLang s with
                         | Some code => String.eqb code "ur"
                         | None => false
                         end)
                        (set_outputText_textContent (out_translatedText result)
                           (elements s)))) in
              match get_prop CONFIG.LANGUAGES (property_key (selectedTargetLang s)) with
              | Throw err => showError (message err) shownOutput
              | Return entry =>
                  match get_prop entry "name" with
                  | Throw err => showError (message err) shownOutput
                  | Return language_name =>
                      set_detectedLang_textContent
                        ("Powered by "
                         ++ (if String.eqb (out_apiUsed result) "" then "Translation API"
                             else out_apiUsed result)
                         ++ " • Translated to " ++ template language_name)
                        shownOutput
                  end
              end
          end;
      selectedTargetLang := selectedTargetLang s;
      isTranslating := false |}).
Proof.
  destruct s as [e sel busy]. unfold click_resume. run_handler. page.
  destruct awaited as [result | err]; [| reflexivity]. page.
  rewrite applyRTL_run. page.
  destruct (get_prop CONFIG.LANGUAGES (property_key sel)) as [entry | err]; [| reflexivity].
  destruct (get_prop entry "name"); reflexivity.
Qed.

Lemma copy_resume_run written s :
  copy_resume written s =
  match written with
  | Return _ =>
      (Return (RestoreLater (copyBtn_innerHTML (elements s))),
       with_elements
         (set_copyBtn_background "var(--success-color)"
            (set_copyBtn_innerHTML "<span>✅</span> Copied!" (elements s)))
         s)
  | Throw _ => (Return (Alert "Failed to copy text. Please copy manually."), s)
  end.
Proof.
  destruct s as [e sel busy]. unfold copy_resume. run_handler.
  destruct written as [[] | err]; reflexivity.
Qed.

Lemma copy_restore_run originalText s :
  copy_restore originalText s =
  (Return tt,
   with_elements (set_copyBtn_background "" (set_copyBtn_innerHTML originalText (elements s))) s).
Proof. destruct s as [e sel busy]. reflexivity. Qed.

Lemma initializeApp_run s :
  initializeApp s =
  on_language_click 0
    (with_elements
       (set_copyBtn_disabled true
          (set_translateBtn_disabled true
             (updateCharCounter 0 (showState "empty" (elements s)))))
       s).
Proof. destruct s as [e sel busy]. reflexivity. Qed.

Ltac norm :=
  unfold showError, updateCharCounter, updateLanguageButtons;
  repeat match goal with
         | |- context [SFltb ?a ?b] => destruct (SFltb a b)
         end;
  page; cbn [showState String.eqb Ascii.eqb Bool.eqb]; page.

Ltac in_rest := cbn [In rest_panels]; tauto.

(** The invariant holds once [initializeApp] has run. *)
Lemma tidy_start e0 : tidy e0 (started_on e0).
Proof.
  unfold tidy, started_on, loaded. rewrite initializeApp_run, on_language_click_run.
  norm.
  all: destruct (langButtons e0) as [| btn btns] eqn:Hb; cbn [nth_error]; norm; rewrite ?Hb.
  all: split; [in_rest|]; split; [lia|]; split; [split; [discriminate | lia]|].
  all: rewrite ?map_map; cbn [dataset_lang active].
  all: split; [reflexivity|]; try reflexivity.
  all: split; [left; reflexivity | reflexivity].
Qed.

(** The translate click, up to the call, keeps the invariant. *)
Lemma click_keeps_tidy e0 m :
  tidy e0 m ->
  tidy e0 {| ui := snd (click_sync (ui m));
             pending := pending m + started (fst (click_sync (ui m)));
             writing := writing m; timers := timers m |}.
Proof.
  destruct m as [[e sel busy] p w t].
  intros (Hpanels & Hpend & Hbusy & Hlangs & Hsel).
  cbn [ui pending elements selectedTargetLang isTranslating] in *.
  unfold tidy. rewrite click_sync_run. cbv zeta.
  cbn [ui elements selectedTargetLang isTranslating].
  destruct (String.eqb (trim (inputText_value e)) "");
    [| destruct (unselected sel); [| destruct busy]]; norm; rewrite ?Nat.add_0_r.
  1-3: repeat split; try assumption; try in_rest; try tauto.
  assert (p = 0%nat) by (destruct p as [| [| p]];
                           [reflexivity | destruct Hbusy as [_ Hb]; specialize (Hb eq_refl);
                                          discriminate | lia]).
  subst p. cbn [started Nat.add]. repeat split; try assumption; try in_rest; try lia.
Qed.

Lemma some_inj {A} (x y : A) : Some x = Some y -> x = y.
Proof. congruence. Qed.

(** Every event keeps the invariant. *)
Lemma tidy_step e0 ev m m' :
  tidy e0 m -> step ev m = Some m' -> tidy e0 m'.
Proof.
  intros Htidy Hstep. pose proof Htidy as (Hpanels & Hpend & Hbusy & Hlangs & Hsel).
  cbv zeta in Hpanels, Hpend, Hbusy, Hlangs, Hsel.
  destruct ev; unfold step in Hstep.
  - (* Input *)
    apply some_inj in Hstep; subst m'. unfold tidy. rewrite on_input_run. cbv zeta.
    destruct m as [[e sel busy] p w t]; clear Htidy;
      cbn [ui elements selectedTargetLang isTranslating pending] in Hpanels, Hpend, Hbusy, Hlangs, Hsel. norm.
    all: destruct (outputText_show e) eqn:Hout; norm;
      repeat split; try assumption; try in_rest; tauto.
  - (* Clear *)
    apply some_inj in Hstep; subst m'. unfold tidy. rewrite on_clear_run.
    destruct m as [[e sel busy] p w t]; clear Htidy;
      cbn [ui elements selectedTargetLang isTranslating pending] in Hpanels, Hpend, Hbusy, Hlangs, Hsel. norm.
    all: repeat split; try assumption; try in_rest; tauto.
  - (* Language *)
    apply some_inj in Hstep; subst m'. unfold tidy. rewrite on_language_click_run.
    destruct m as [[e sel busy] p w t]; clear Htidy;
      cbn [ui elements selectedTargetLang isTranslating pending] in Hpanels, Hpend, Hbusy, Hlangs, Hsel. norm.
    destruct (nth_error (langButtons e) i) as [btn |] eqn:Hnth; norm.
    + rewrite !map_map. cbn [dataset_lang active].
      split; [exact Hpanels|]. split; [exact Hpend|]. split; [exact Hbusy|].
      split; [exact Hlangs|]. split; [| reflexivity].
      cbn [ui elements] in Hlangs. rewrite <- Hlangs. apply in_map.
      eapply nth_error_In; eassumption.
    + repeat split; try assumption; tauto.
  - (* Translate *)
    destruct (translateBtn_disabled (elements (ui m))); [discriminate|].
    apply some_inj in Hstep; subst m'. exact (click_keeps_tidy Htidy).
  - (* Keydown *)
    apply some_inj in Hstep; subst m'. unfold on_keydown.
    destruct (String.eqb key "Enter" && (ctrlKey || metaKey));
      [unfold u_bind, u_read, u_ret;
       destruct (translateBtn_disabled (elements (ui m))); cbn [negb] |].
    + cbn [u_ret fst snd started]. rewrite Nat.add_0_r. destruct m; exact Htidy.
    + exact (click_keeps_tidy Htidy).
    + cbn [u_ret fst snd started]. rewrite Nat.add_0_r. destruct m; exact Htidy.
  - (* Settled *)
    destruct (pending m) as [| k] eqn:Hp; [discriminate|]. apply some_inj in Hstep; subst m'.
    assert (k = 0%nat) by lia. subst k.
    unfold tidy. rewrite click_resume_run.
    destruct m as [[e sel busy] p w t]; clear Htidy;
      cbn [ui elements selectedTargetLang isTranslating pending] in Hpanels, Hpend, Hbusy, Hlangs, Hsel. norm.
    destruct awaited as [result | err]; cbv zeta;
      [destruct (get_prop CONFIG.LANGUAGES (property_key sel)) as [entry | err];
       [destruct (get_prop entry "name") as [nm | err] |] |]; norm.
    all: split; [in_rest|]; split; [lia|]; split; [split; [discriminate | lia]|];
      split; assumption.
  - (* Copy *)
    destruct (copyBtn_disabled (elements (ui m))); [discriminate|].
    apply some_inj in Hstep; subst m'. destruct m; exact Htidy.
  - (* Written *)
    destruct (writing m) as [| k]; [discriminate|]. apply some_inj in Hstep; subst m'.
    unfold tidy. rewrite copy_resume_run.
    destruct m as [[e sel busy] p w t]; clear Htidy;
      cbn [ui elements selectedTargetLang isTranslating pending] in Hpanels, Hpend, Hbusy, Hlangs, Hsel.
    destruct written as [[] | err]; norm; repeat split; try assumption; tauto.
  - (* Timer *)
    destruct (timers m) as [| originalText rest]; [discriminate|]. apply some_inj in Hstep; subst m'.
    unfold tidy. rewrite copy_restore_run.
    destruct m as [[e sel busy] p w t]; clear Htidy;
      cbn [ui elements selectedTargetLang isTranslating pending] in Hpanels, Hpend, Hbusy, Hlangs, Hsel. norm.
    repeat split; try assumption; tauto.
Qed.

(** The invariant holds in every state the page can reach. *)
Lemma reachable_tidy e0 m : reachable e0 m -> tidy e0 m.
Proof.
  intros [evs Hrun]. revert Hrun. generalize (tidy_start e0).
  generalize (started_on e0). induction evs as [| ev evs IH]; intros m0 Hm0 Hrun.
  - injection Hrun as <-. exact Hm0.
  - cbn [run_events] in Hrun. destruct (step ev m0) as [m1 |] eqn:Hstep; [| discriminate].
    exact (IH m1 (tidy_step ev Hm0 Hstep) Hrun).
Qed.

(** X11 (one panel at a time, copy only beside a translation): in every
    state the page can reach from its start, by any sequence of inputs,
    clicks, key presses, completions and timers, exactly one of the loading,
    empty, error and output panels is shown, and the copy button is enabled
    exactly when that panel is the output. *)
Theorem one_panel_and_copy_only_with_output e0 m :
  reachable e0 m ->
  exists name,
    shown (elements (ui m)) = [name]
    /\ In name ["loading"; "empty"; "error"; "output"]
    /\ copyBtn_disabled (elements (ui m)) = negb (String.eqb name "output").
Proof.
  intros Hreach. destruct (reachable_tidy Hreach) as (Hpanels & _).
  cbv zeta in Hpanels. unfold panels, shown in *. cbn [In rest_panels] in Hpanels.
  destruct Hpanels as [H | [H | [H | [H | []]]]]; injection H as <- <- <- <- <-.
  - exists "loading". cbn. tauto.
  - exists "empty". cbn. tauto.
  - exists "error". cbn. tauto.
  - exists "output". cbn. tauto.
Qed.

(** X12 (no two translations at once): in every state the page can reach, at
    most one call of [translateText] is awaited, and [isTranslating] is true
    exactly when one is. *)
Theorem at_most_one_translation_in_flight e0 m :
  reachable e0 m ->
  (pending m <= 1)%nat /\ (isTranslating (ui m) = true <-> pending m = 1%nat).
Proof.
  intros Hreach. destruct (reachable_tidy Hreach) as (_ & Hpend & Hbusy & _).
  split; assumption.
Qed.

(** X13 (the highlighted button is the selected language): in every state
    the page can reach, the buttons carry the codes they were loaded with,
    the selected language is the code of one of them, and a button is active
    exactly when it carries that code; no language is selected only on a
    page without buttons. *)
Theorem active_button_is_the_selected_language e0 m :
  reachable e0 m ->
  let buttons := langButtons (elements (ui m)) in
  map dataset_lang buttons = map dataset_lang (langButtons e0)
  /\ match selectedTargetLang (ui m) with
     | Some code =>
         In code (map dataset_lang buttons)
         /\ map active buttons = map (fun btn => String.eqb (dataset_lang btn) code) buttons
     | None => buttons = []
     end.
Proof.
  intros Hreach. destruct (reachable_tidy Hreach) as (_ & _ & _ & Hlangs & Hsel).
  cbv zeta in *. split; [exact Hlangs|].
  destruct (selectedTargetLang (ui m)) as [code |].
  - rewrite Hlangs. exact Hsel.
  - rewrite Hsel in Hlangs. destruct (langButtons (elements (ui m))); [reflexivity | discriminate].
Qed.

(** X14 (editing hides the translation): after an edit of the input in a
    state the page can reach, the text area holds the edited text, the output
    panel is hidden and the copy button is disabled. *)
Theorem editing_hides_the_translation e0 m m' value :
  reachable e0 m ->
  step (Input value) m = Some m' ->
  inputText_value (elements (ui m')) = value
  /\ outputText_show (elements (ui m')) = false
  /\ copyBtn_disabled (elements (ui m')) = true.
Proof.
  intros Hreach Hstep. destruct (reachable_tidy Hreach) as (Hpanels & _).
  unfold step in Hstep. apply some_inj in Hstep. subst m'.
  rewrite on_input_run. cbv zeta in *.
  destruct m as [[e sel busy] p w t]. cbn [ui elements] in Hpanels. norm.
  all: destruct (outputText_show e) eqn:Hout; norm; repeat split; try assumption.
  all: unfold panels in Hpanels; cbn [In rest_panels] in Hpanels; rewrite Hout in Hpanels.
  all: destruct Hpanels as [H | [H | [H | [H | []]]]]; congruence.
Qed.

(** X20 (no listener throws): from every application state, the input,
    clear, language, translate, key and copy listeners, the timer callback and
    [initializeApp] return; in particular whatever [translateText] settles
    with, and whatever reading the registry at that moment throws, is caught
    by the translate handler. *)
Theorem handlers_never_throw s :
  (forall value, fst (on_input value s) = Return tt)
  /\ fst (on_clear s) = Return tt
  /\ (forall i, fst (on_language_click i s) = Return tt)
  /\ (exists call, fst (click_sync s) = Return call)
  /\ (forall awaited, fst (click_resume awaited s) = Return tt)
  /\ (forall key ctrlKey metaKey, exists call, fst (on_keydown key ctrlKey metaKey s) = Return call)
  /\ (forall written, exists feedback, fst (copy_resume written s) = Return feedback)
  /\ (forall originalText, fst (copy_restore originalText s) = Return tt)
  /\ fst (initializeApp s) = Return tt.
Proof.
  assert (Hclick : forall s', exists call, fst (click_sync s') = Return call).
  { intros s'. rewrite click_sync_run. cbv zeta.
    destruct (String.eqb (trim (inputText_value (elements s'))) "");
      [eexists; reflexivity|].
    destruct (unselected (selectedTargetLang s')); [eexists; reflexivity|].
    destruct (isTranslating s'); eexists; reflexivity. }
  assert (Hlang : forall i s', fst (on_language_click i s') = Return tt).
  { intros i s'. rewrite on_language_click_run. destruct (nth_error _ i); reflexivity. }
  split; [intros; rewrite on_input_run; reflexivity|].
  split; [rewrite on_clear_run; reflexivity|].
  split; [intros; apply Hlang|].
  split; [apply Hclick|].
  split; [intros; rewrite click_resume_run; reflexivity|].
  split.
  { intros key ctrlKey metaKey. unfold on_keydown.
    destruct (String.eqb key "Enter" && (ctrlKey || metaKey)); [| eexists; reflexivity].
    unfold u_bind, u_read. destruct (negb (translateBtn_disabled (elements s)));
      [apply Hclick | eexists; reflexivity]. }
  split; [intros written; rewrite copy_resume_run; destruct written; eexists; reflexivity|].
  split; [intros; rewrite copy_restore_run; reflexivity|].
  rewrite initializeApp_run. apply Hlang.
Qed.

(** A trimmed text is shorter than [CONFIG.MIN_CHARS] exactly when it is
    empty. *)
Lemma blank_iff_short value :
  negb (CONFIG.MIN_CHARS <=? length_utf16 (trim value)) = String.eqb (trim value) "".
Proof.
  destruct (String.eqb_spec (trim value) "") as [-> | Hne]; [reflexivity|].
  apply min_chars_reached in Hne. unfold CONFIG.MIN_CHARS in *.
  apply N.ltb_ge in Hne. apply negb_false_iff. apply N.leb_le. exact Hne.
Qed.

(** X16 (the page after [initializeApp]): the empty panel alone is shown, the
    counter reads [0] in the muted colour, the copy button is disabled and no
    translation is running; the first language button, if there is one, is
    selected, and the translate button is then disabled exactly when the
    text area is blank; without buttons no language is selected and the
    translate button is disabled. *)
Theorem initializeApp_selects_first_language e :
  let s := snd (initializeApp (loaded e)) in
  shown (elements s) = ["empty"]
  /\ copyBtn_disabled (elements s) = true
  /\ charCount_textContent (elements s) = "0"
  /\ charCount_color (elements s) = "var(--text-muted)"
  /\ isTranslating s = false
  /\ match langButtons e with
     | [] => selectedTargetLang s = None /\ translateBtn_disabled (elements s) = true
     | btn :: _ =>
         selectedTargetLang s = Some (dataset_lang btn)
         /\ translateBtn_disabled (elements s) = String.eqb (trim (inputText_value e)) ""
     end.
Proof.
  cbv zeta. unfold loaded. rewrite initializeApp_run, on_language_click_run.
  assert (Hmuted : SFltb (SFmul 53 1024 (Number CONFIG.MAX_CHARS) literal_0_9) (Number 0) = false)
    by (vm_compute; reflexivity).
  unfold updateCharCounter. rewrite Hmuted. page.
  cbn [showState String.eqb Ascii.eqb Bool.eqb]. page.
  destruct (langButtons e) as [| btn btns]; cbn [nth_error]; unfold updateLanguageButtons; page;
    unfold shown; page; rewrite ?blank_iff_short; repeat split.
Qed.

(** X17 (the copy feedback is undone): with the copy button enabled and no
    timer armed, a copy, the clipboard's success and the timer leave the page
    as it was before the click, but for the button's background being reset to
    the empty string; no timer stays armed. *)
Theorem copy_feedback_is_undone m :
  copyBtn_disabled (elements (ui m)) = false ->
  timers m = [] ->
  exists m',
    run_events [Copy; Written (Return tt); Timer] m = Some m'
    /\ elements (ui m') = set_copyBtn_background "" (elements (ui m))
    /\ timers m' = [] /\ writing m' = writing m /\ pending m' = pending m.
Proof.
  intros Henabled Hnone. destruct m as [[e sel busy] p w t].
  cbn [timers ui elements] in Hnone, Henabled. subst t.
  cbn [run_events]. unfold step at 1. cbn [ui elements]. rewrite Henabled.
  eexists. split; [reflexivity|]. cbn. destruct e; repeat split.
Qed.

(** X18 (a second copy within two seconds keeps the label): with the copy
    button enabled and no timer armed, two copies that both succeed before
    the first timer fires leave the button labelled [Copied!] after both
    timers have fired: the second click saved the feedback label as the
    original one. *)
Theorem overlapping_copies_leave_the_label_stuck m :
  copyBtn_disabled (elements (ui m)) = false ->
  timers m = [] ->
  exists m',
    run_events [Copy; Written (Return tt); Copy; Written (Return tt); Timer; Timer] m = Some m'
    /\ copyBtn_innerHTML (elements (ui m')) = "<span>✅</span> Copied!"
    /\ timers m' = [].
Proof.
  intros Henabled Hnone. destruct m as [[e sel busy] p w t].
  cbn [timers ui elements] in Hnone, Henabled. subst t.
  cbn [run_events]. unfold step at 1. cbn [ui elements]. rewrite Henabled.
  unfold step at 1. unfold step at 1.
  cbn [ui elements writing copy_sync u_read snd].
  rewrite copy_resume_run. cbn [snd elements with_elements].
  change (copyBtn_disabled (set_copyBtn_background "var(--success-color)"
            (set_copyBtn_innerHTML "<span>✅</span> Copied!" e)))
    with (copyBtn_disabled e).
  rewrite Henabled.
  eexists. split; [reflexivity|]. cbn. split; reflexivity.
Qed.

(** X19 (a failed copy only alerts): when the clipboard rejects the write,
    the page and the armed timers are left as they are and the handler
    alerts [Failed to copy text. Please copy manually.]. *)
Theorem failed_copy_changes_nothing m m' err :
  step (Written (Throw err)) m = Some m' ->
  ui m' = ui m /\ timers m' = timers m
  /\ fst (copy_resume (Throw err) (ui m)) = Return (Alert "Failed to copy text. Please copy manually.").
Proof.
  unfold step. destruct (writing m); [discriminate|]. intros H. apply some_inj in H. subst m'.
  rewrite copy_resume_run. cbn. repeat split.
Qed.

(* ===================================================================== *)
(** ** The translate click from end to end *)
(* ===================================================================== *)

Section Click.

Variable W : Type.
Variable net : W -> request -> reply * W.
Variable timer_first : W -> bool.

(** What [translateText] returns names one of the three adapters. *)
Lemma translateText_names_adapter text targetLang (st : state W) r :
  outcome_of (translateText net timer_first text targetLang st) = Return r ->
  In (out_apiUsed r) (map provider_name [Lingva; MyMemory; LibreTranslate]).
Proof.
  destruct (languages_read targetLang) as [entry Hentry].
  destruct (get_prop entry "name") as [nm | e] eqn:Hname.
  - rewrite (translateText_run net timer_first text st Hentry Hname).
    destruct (loop_trace net timer_first (List.length (apis net)) text targetLang
                [Lingva; MyMemory; LibreTranslate] 0 st ltac:(cbn; lia))
      as (n & Hn & _ & _ & Hres).
    change (map (adapter_of net) [Lingva; MyMemory; LibreTranslate]) with (apis net) in *.
    destruct (translateText_loop timer_first (List.length (apis net)) text targetLang 0
                (apis net) st) as [[r' st1] ev].
    cbn [outcome_of fst snd] in *. intros ->. destruct Hres as [Hpos Hnm].
    destruct (nth_error [Lingva; MyMemory; LibreTranslate] (n - 1)) as [p |] eqn:Hp;
      [| discriminate].
    cbn [option_map] in Hnm. injection Hnm as <-.
    apply in_map. eapply nth_error_In; eassumption.
  - rewrite (translateText_stops net timer_first text st Hentry Hname). discriminate.
Qed.

(** The registry entry of a supported code, and its name. *)
Lemma language_entry code :
  supported code = true ->
  exists entry language_name,
    In (code, language_name) language_names
    /\ get_prop CONFIG.LANGUAGES code = Return entry
    /\ get_prop entry "name" = Return (VString language_name).
Proof.
  intros Hsupp. apply supported_cases in Hsupp.
  destruct Hsupp as [-> | [-> | [-> | ->]]]; do 2 eexists.
  all: (split; [| split; reflexivity]).
  all: cbn [In language_names].
  all: tauto.
Qed.

(** X9 (a translate click, run to its end): with a text that is not blank,
    a supported language selected and no translation running, the click runs
    [translateText] on the trimmed input and the selected code and leaves the
    network as that call leaves it; afterwards no translation is running, the
    translate button is enabled and the input is untouched.  If the call
    returned, the output panel alone is shown with the translated text, right
    to left exactly for [ur], the copy button is enabled and the credit line
    reads [Powered by <adapter> • Translated to <language>]; if it threw, the
    error panel alone is shown with the error's message, the copy button is
    disabled and the previous output text is kept. *)
Theorem translate_click_shows_result_or_error s st code :
  let text := trim (inputText_value (elements s)) in
  text <> "" ->
  selectedTargetLang s = Some code ->
  supported code = true ->
  isTranslating s = false ->
  let run := translateText net timer_first text code st in
  let after := on_translate_click net timer_first s st in
  let page := elements (fst (fst after)) in
  snd (fst after) = state_of run
  /\ snd after = events_of run
  /\ isTranslating (fst (fst after)) = false
  /\ selectedTargetLang (fst (fst after)) = Some code
  /\ translateBtn_disabled page = false
  /\ inputText_value page = inputText_value (elements s)
  /\ match outcome_of run with
     | Return result =>
         shown page = ["output"]
         /\ outputText_textContent page = out_translatedText result
         /\ outputText_rtl page = String.eqb code "ur"
         /\ copyBtn_disabled page = false
         /\ exists language_name,
              In (code, language_name) language_names
              /\ detectedLang_textContent page =
                 "Powered by " ++ out_apiUsed result ++ " • Translated to " ++ language_name
     | Throw err =>
         shown page = ["error"]
         /\ errorText_textContent page = message err
         /\ copyBtn_disabled page = true
         /\ outputText_textContent page = outputText_textContent (elements s)
     end.
Proof.
  cbv zeta. intros Htext Hsel Hsupp Hbusy.
  unfold on_translate_click. rewrite click_sync_run. cbv zeta.
  apply String.eqb_neq in Htext. rewrite Htext, Hsel, Hbusy.
  assert (Hcode : code <> "") by (intros ->; discriminate).
  cbn [unselected property_key]. apply String.eqb_neq in Hcode. rewrite Hcode.
  pose proof (@translateText_names_adapter (trim (inputText_value (elements s))) code st) as Hname.
  destruct (translateText net timer_first (trim (inputText_value (elements s))) code st)
    as [[awaited st1] ev].
  rewrite click_resume_run. cbn [fst snd outcome_of state_of events_of] in *.
  destruct s as [e sel busy]. cbn [elements selectedTargetLang isTranslating] in *. subst sel.
  destruct awaited as [result | err].
  - specialize (Hname result eq_refl).
    cbn [property_key]. cbv zeta.
    assert (Hused : String.eqb (out_apiUsed result) "" = false).
    { cbn [map provider_name In] in Hname. destruct Hname as [<- | [<- | [<- | []]]]; reflexivity. }
    rewrite Hused.
    destruct (@language_entry code Hsupp) as (entry & language_name & Hin & Hentry & Hnm).
    rewrite Hentry, Hnm. cbn [template].
    do 10 (split; [vm_compute; reflexivity|]).
    exists language_name. split; [exact Hin | vm_compute; reflexivity].
  - do 9 (split; [vm_compute; reflexivity|]). vm_compute; reflexivity.
Qed.

End Click.

(** The application state left by a click that went as far as the call. *)
Lemma click_sync_started s text code :
  fst (click_sync s) = Return (Some (text, code)) ->
  snd (click_sync s) =
  {| elements := showState "loading"
                   (set_copyBtn_disabled true (set_translateBtn_disabled true (elements s)));
     selectedTargetLang := selectedTargetLang s;
     isTranslating := true |}.
Proof.
  rewrite click_sync_run. cbv zeta.
  destruct (String.eqb (trim (inputText_value (elements s))) ""); [discriminate|].
  destruct (unselected (selectedTargetLang s)); [discriminate|].
  destruct (isTranslating s); [discriminate|]. reflexivity.
Qed.

(** X10 (a result is labelled with the language selected when it arrives):
    if the user picks another language while a translation is awaited, the
    translation of the language asked for is shown with the direction and
    the credit line [Translated to <language>] of the language picked since. *)
Theorem result_is_labelled_with_the_current_selection m text code i btn result :
  translateBtn_disabled (elements (ui m)) = false ->
  fst (click_sync (ui m)) = Return (Some (text, code)) ->
  nth_error (langButtons (elements (ui m))) i = Some btn ->
  supported (dataset_lang btn) = true ->
  exists m' language_name,
    run_events [Translate; Language i; Settled (Return result)] m = Some m'
    /\ In (dataset_lang btn, language_name) language_names
    /\ outputText_textContent (elements (ui m')) = out_translatedText result
    /\ outputText_rtl (elements (ui m')) = String.eqb (dataset_lang btn) "ur"
    /\ detectedLang_textContent (elements (ui m')) =
       "Powered by "
       ++ (if String.eqb (out_apiUsed result) "" then "Translation API"
           else out_apiUsed result)
       ++ " • Translated to " ++ language_name.
Proof.
  intros Henabled Hcall Hbtn Hsupp.
  destruct (@language_entry (dataset_lang btn) Hsupp) as (entry & language_name & Hin & Hentry & Hnm).
  cbn [run_events]. unfold step at 1. cbv zeta. rewrite Henabled, Hcall.
  rewrite (click_sync_started _ Hcall). cbn [started].
  unfold step at 1. cbn [ui pending writing timers].
  rewrite on_language_click_run. cbn [elements].
  change (langButtons (showState "loading"
            (set_copyBtn_disabled true (set_translateBtn_disabled true (elements (ui m))))))
    with (langButtons (elements (ui m))).
  rewrite Hbtn. cbn [snd]. unfold step. cbn [ui pending writing timers].
  rewrite Nat.add_1_r. rewrite click_resume_run.
  cbn [snd elements selectedTargetLang isTranslating property_key]. rewrite Hentry, Hnm.
  cbv zeta. cbn [template].
  eexists. exists language_name. split; [reflexivity|]. split; [exact Hin|].
  cbn [ui elements]. repeat (split; [vm_compute; reflexivity|]). vm_compute; reflexivity.
Qed.

(** The last element of a list that is not empty. *)
Lemma last_after_cons {A} (l : list A) :
  forall a d, last (a :: l) d = last l a.
Proof.
  induction l as [| b l IH]; intros a d; [reflexivity|].
  change (last (a :: b :: l) d) with (last (b :: l) d). rewrite !IH. reflexivity.
Qed.

(** Edits leave the translate button as it is. *)
Lemma typing_keeps_disabled values :
  forall m,
    translateBtn_disabled (elements (ui m)) = true ->
    exists m',
      run_events (map Input values) m = Some m'
      /\ inputText_value (elements (ui m')) = last values (inputText_value (elements (ui m)))
      /\ translateBtn_disabled (elements (ui m')) = true.
Proof.
  induction values as [| value values IH]; intros m Hdisabled.
  - exists m. repeat split. exact Hdisabled.
  - cbn [map run_events]. unfold step.
    set (m1 := {| ui := snd (on_input value (ui m)); pending := pending m;
                  writing := writing m; timers := timers m |}).
    assert (Hm1 : translateBtn_disabled (elements (ui m1)) = true
                  /\ inputText_value (elements (ui m1)) = value).
    { subst m1. cbn [ui]. rewrite on_input_run. cbv zeta.
      destruct m as [[e sel busy] p w t]. cbn [ui elements] in Hdisabled.
      cbn [snd elements with_elements]. unfold updateCharCounter.
      destruct (SFltb _ _); destruct (outputText_show _); split; assumption || reflexivity. }
    destruct Hm1 as [Hdis1 Hval1].
    destruct (IH m1 Hdis1) as (m' & Hrun & Hval & Hdis).
    exists m'. split; [exact Hrun|]. split; [| exact Hdis].
    rewrite Hval, Hval1. symmetry. apply last_after_cons.
Qed.

(** X15 (typing does not enable the translate button): on a page loaded with
    a blank text area, after any sequence of edits the text area holds the
    last edit and the translate button is still disabled: a click on it
    dispatches nothing and Ctrl+Enter or Cmd+Enter does nothing, whatever was
    typed. *)
Theorem typing_does_not_enable_translating e values :
  trim (inputText_value e) = "" ->
  exists m,
    run_events (map Input values) (started_on e) = Some m
    /\ inputText_value (elements (ui m)) = last values (inputText_value e)
    /\ translateBtn_disabled (elements (ui m)) = true
    /\ step Translate m = None
    /\ forall key ctrlKey metaKey, step (Keydown key ctrlKey metaKey) m = Some m.
Proof.
  intros Hblank.
  assert (Hstart : translateBtn_disabled (elements (ui (started_on e))) = true
                   /\ inputText_value (elements (ui (started_on e))) = inputText_value e).
  { unfold started_on, loaded. cbn [ui]. rewrite initializeApp_run, on_language_click_run.
    cbn [elements with_elements].
    change (inputText_value (set_copyBtn_disabled true (set_translateBtn_disabled true
              (updateCharCounter 0 (showState "empty" e))))) with (inputText_value e).
    rewrite blank_iff_short, Hblank.
    destruct (nth_error _ 0); split; reflexivity. }
  destruct Hstart as [Hdisabled Hvalue].
  destruct (@typing_keeps_disabled values (started_on e) Hdisabled) as (m & Hrun & Hval & Hdis).
  exists m. split; [exact Hrun|]. split; [rewrite Hval, Hvalue; reflexivity|].
  split; [exact Hdis|]. split.
  - unfold step. rewrite Hdis. reflexivity.
  - intros key ctrlKey metaKey. unfold step, on_keydown.
    destruct (String.eqb key "Enter" && (ctrlKey || metaKey)).
    + unfold u_bind, u_read, u_ret. rewrite Hdis. cbn [negb fst snd started].
      rewrite Nat.add_0_r. destruct m; reflexivity.
    + unfold u_ret. cbn [fst snd started]. rewrite Nat.add_0_r. destruct m; reflexivity.
Qed.

(* ===================================================================== *)
(** ** The further properties at concrete inputs *)
(* ===================================================================== *)

(** X1 at a concrete input: "Hello, world!" to French. *)
Lemma get_request_urls_witness :
  let net := scripted bonjour mymemory_bonjour libre_bonjour in
  supported "fr" = true
  /\ encodeURIComponent "Hello, world!" = Return "Hello%2C%20world!"
  /\ requests (events_of (translateWithLingva net "Hello, world!" "fr" boot)) =
     [ {| method := "GET";
          url := "https://lingva.ml/api/v1/auto/fr/Hello%2C%20world!";
          headers := []; body_json := None; signal := None |} ]
  /\ requests (events_of (translateWithMyMemory net "Hello, world!" "fr" boot)) =
     [ {| method := "GET";
          url := "https://api.mymemory.translated.net/get?q=Hello%2C%20world!&langpair=en|fr";
          headers := []; body_json := None; signal := None |} ].
Proof.
  cbv zeta. split; [reflexivity|]. split; [reflexivity|].
  pose proof (@get_request_urls N (scripted bonjour mymemory_bonjour libre_bonjour)
                "Hello, world!" "fr" boot eq_refl) as Hurls.
  change (encodeURIComponent "Hello, world!") with (Return (A := string) "Hello%2C%20world!")
    in Hurls.
  destruct Hurls as (_ & Hlingva & Hmymemory & _).
  split; [exact Hlingva | exact Hmymemory].
Defined.

(** X4 at a concrete input: Lingva and MyMemory answer HTTP 500,
    LibreTranslate answers "Bonjour". *)
Lemma third_success_after_two_failures_witness :
  let net := scripted server_error server_error libre_bonjour in
  let a := raced timer_wins 0 (translateWithLingva net) "Hello" "fr" boot in
  let b := raced timer_wins 1 (translateWithMyMemory net) "Hello" "fr" (state_of a) in
  let c := raced timer_wins 2 (translateWithLibreTranslate net) "Hello" "fr" (state_of b) in
  let r := {| translatedText := VString "Bonjour"; apiUsed := "LibreTranslate" |} in
  a = (Throw (Error "HTTP 500"), state_of a, events_of a)
  /\ b = (Throw (Error "HTTP 500"), state_of b, events_of b)
  /\ c = (Return r, state_of c, events_of c)
  /\ exists ev,
      translateText net timer_wins "Hello" "fr" boot =
        (Return {| out_translatedText := translatedText r;
                   out_apiUsed := "LibreTranslate";
                   detectedLanguage := VNull;
                   detectedConfidence := VNull |}, state_of c, ev)
      /\ invocations ev = [0%nat; 1%nat; 2%nat]
      /\ requests ev =
         (requests (events_of a) ++ requests (events_of b) ++ requests (events_of c))%list.
Proof.
  cbv zeta. split; [reflexivity|]. split; [reflexivity|]. split; [reflexivity|].
  eapply (@third_success_after_two_failures N
            (scripted server_error server_error libre_bonjour) timer_wins "Hello" "fr" boot).
  - reflexivity.
  - reflexivity.
  - reflexivity.
Defined.

(** X6 at a concrete input: Urdu on the page with four buttons. *)
Lemma updateLanguageButtons_marks_selected_witness :
  NoDup (map dataset_lang (langButtons sample_page))
  /\ map active (langButtons (updateLanguageButtons "ur" sample_page))
     = [false; true; false; false]
  /\ List.length (filter active (langButtons (updateLanguageButtons "ur" sample_page)))
     = 1%nat.
Proof.
  assert (Hdistinct : NoDup (map dataset_lang (langButtons sample_page))).
  { cbn. repeat constructor; cbn; intuition discriminate. }
  split; [exact Hdistinct|].
  destruct (@updateLanguageButtons_marks_selected "ur" sample_page Hdistinct)
    as (_ & _ & Hactive & Hcount).
  split; [exact Hactive | exact Hcount].
Defined.

(** X7 at a concrete input: 4501 characters. *)
Lemma counter_warns_above_ninety_percent_witness :
  4501 < 2 ^ 53
  /\ charCount_textContent (updateCharCounter 4501 sample_page) = "4501"
  /\ charCount_color (updateCharCounter 4501 sample_page) = "var(--error-color)".
Proof.
  split; [reflexivity|].
  exact (@counter_warns_above_ninety_percent 4501 sample_page eq_refl).
Defined.

(** X9 at a concrete input: French is selected, Lingva answers. *)
Lemma translate_click_shows_result_or_error_witness :
  let net := scripted bonjour mymemory_bonjour libre_bonjour in
  let s := ui (after_events [Language 3] sample_page) in
  let after := on_translate_click net timer_wins s boot in
  trim (inputText_value (elements s)) <> ""
  /\ selectedTargetLang s = Some "fr"
  /\ supported "fr" = true
  /\ isTranslating s = false
  /\ shown (elements (fst (fst after))) = ["output"]
  /\ outputText_textContent (elements (fst (fst after))) = VString "Bonjour, le monde!"
  /\ copyBtn_disabled (elements (fst (fst after))) = false
  /\ translateBtn_disabled (elements (fst (fst after))) = false.
Proof.
  cbv zeta.
  assert (Htext : trim (inputText_value (elements (ui (after_events [Language 3] sample_page))))
                  <> "") by (vm_compute; discriminate).
  split; [exact Htext|]. split; [reflexivity|]. split; [reflexivity|]. split; [reflexivity|].
  pose proof (@translate_click_shows_result_or_error N
                (scripted bonjour mymemory_bonjour libre_bonjour) timer_wins
                (ui (after_events [Language 3] sample_page)) boot "fr"
                Htext eq_refl eq_refl eq_refl) as Hclick.
  cbv zeta in Hclick.
  destruct Hclick as (_ & _ & _ & _ & Henabled & _ & Hresult).
  vm_compute in Hresult. destruct Hresult as (Hshown & Htext' & _ & Hcopy & _).
  split; [exact Hshown|]. split; [exact Htext'|]. split; [exact Hcopy | exact Henabled].
Defined.

(** X10 at a concrete input: English is asked for, Urdu is picked before the
    translation arrives. *)
Lemma result_is_labelled_with_the_current_selection_witness :
  let m := started_on sample_page in
  let btn := {| dataset_lang := "ur"; dataset_name := "Urdu"; active := false |} in
  translateBtn_disabled (elements (ui m)) = false
  /\ fst (click_sync (ui m)) = Return (Some ("Hello, world!", "en"))
  /\ nth_error (langButtons (elements (ui m))) 1 = Some btn
  /\ supported (dataset_lang btn) = true
  /\ exists m' language_name,
       run_events [Translate; Language 1; Settled (Return sample_result)] m = Some m'
       /\ In (dataset_lang btn, language_name) language_names
       /\ outputText_textContent (elements (ui m')) = out_translatedText sample_result
       /\ outputText_rtl (elements (ui m')) = String.eqb (dataset_lang btn) "ur"
       /\ detectedLang_textContent (elements (ui m')) =
          "Powered by "
          ++ (if String.eqb (out_apiUsed sample_result) "" then "Translation API"
              else out_apiUsed sample_result)
          ++ " • Translated to " ++ language_name.
Proof.
  cbv zeta. split; [reflexivity|]. split; [reflexivity|]. split; [reflexivity|].
  split; [reflexivity|].
  apply (@result_is_labelled_with_the_current_selection (started_on sample_page)
           "Hello, world!" "en" 1%nat
           {| dataset_lang := "ur"; dataset_name := "Urdu"; active := false |} sample_result);
    reflexivity.
Defined.

(** X11 at a concrete input: the page on which a translation has arrived. *)
Lemma one_panel_and_copy_only_with_output_witness :
  reachable sample_page sample_machine
  /\ exists name,
       shown (elements (ui sample_machine)) = [name]
       /\ In name ["loading"; "empty"; "error"; "output"]
       /\ copyBtn_disabled (elements (ui sample_machine)) = negb (String.eqb name "output").
Proof.
  assert (Hreach : reachable sample_page sample_machine)
    by (exists sample_events; vm_compute; reflexivity).
  split; [exact Hreach|].
  exact (@one_panel_and_copy_only_with_output sample_page sample_machine Hreach).
Defined.

(** X12 at a concrete input: the page on which a translation has arrived. *)
Lemma at_most_one_translation_in_flight_witness :
  reachable sample_page sample_machine
  /\ (pending sample_machine <= 1)%nat
  /\ (isTranslating (ui sample_machine) = true <-> pending sample_machine = 1%nat).
Proof.
  assert (Hreach : reachable sample_page sample_machine)
    by (exists sample_events; vm_compute; reflexivity).
  split; [exact Hreach|].
  exact (@at_most_one_translation_in_flight sample_page sample_machine Hreach).
Defined.

(** X13 at a concrete input: the page on which a translation has arrived. *)
Lemma active_button_is_the_selected_language_witness :
  reachable sample_page sample_machine
  /\ selectedTargetLang (ui sample_machine) = Some "fr"
  /\ map active (langButtons (elements (ui sample_machine))) = [false; false; false; true].
Proof.
  assert (Hreach : reachable sample_page sample_machine)
    by (exists sample_events; vm_compute; reflexivity).
  split; [exact Hreach|]. split; [reflexivity|].
  pose proof (@active_button_is_the_selected_language sample_page sample_machine Hreach)
    as Hactive.
  cbv zeta in Hactive. destruct Hactive as [_ Hactive].
  vm_compute in Hactive. exact (proj2 Hactive).
Defined.

(** X14 at a concrete input: an edit after the translation has arrived. *)
Lemma editing_hides_the_translation_witness :
  reachable sample_page sample_machine
  /\ step (Input "Hi") sample_machine = Some sample_edited
  /\ inputText_value (elements (ui sample_edited)) = "Hi"
  /\ outputText_show (elements (ui sample_edited)) = false
  /\ copyBtn_disabled (elements (ui sample_edited)) = true.
Proof.
  assert (Hreach : reachable sample_page sample_machine)
    by (exists sample_events; vm_compute; reflexivity).
  assert (Hstep : step (Input "Hi") sample_machine = Some sample_edited)
    by (vm_compute; reflexivity).
  split; [exact Hreach|]. split; [exact Hstep|].
  exact (@editing_hides_the_translation sample_page sample_machine sample_edited "Hi"
           Hreach Hstep).
Defined.

(** X15 at a concrete input: two edits on the page loaded blank. *)
Lemma typing_does_not_enable_translating_witness :
  trim (inputText_value blank_page) = ""
  /\ exists m,
       run_events (map Input ["H"; "Hi"]) (started_on blank_page) = Some m
       /\ inputText_value (elements (ui m)) = "Hi"
       /\ translateBtn_disabled (elements (ui m)) = true
       /\ step Translate m = None
       /\ forall key ctrlKey metaKey, step (Keydown key ctrlKey metaKey) m = Some m.
Proof.
  split; [reflexivity|].
  exact (@typing_does_not_enable_translating blank_page ["H"; "Hi"] eq_refl).
Defined.

(** X17 at a concrete input: a copy of the translation that has arrived. *)
Lemma copy_feedback_is_undone_witness :
  copyBtn_disabled (elements (ui sample_machine)) = false
  /\ timers sample_machine = []
  /\ exists m',
       run_events [Copy; Written (Return tt); Timer] sample_machine = Some m'
       /\ elements (ui m') = set_copyBtn_background "" (elements (ui sample_machine))
       /\ timers m' = [] /\ writing m' = writing sample_machine
       /\ pending m' = pending sample_machine.
Proof.
  split; [reflexivity|]. split; [reflexivity|].
  exact (@copy_feedback_is_undone sample_machine eq_refl eq_refl).
Defined.

(** X18 at a concrete input: two copies of the translation that has
    arrived. *)
Lemma overlapping_copies_leave_the_label_stuck_witness :
  copyBtn_disabled (elements (ui sample_machine)) = false
  /\ timers sample_machine = []
  /\ copyBtn_innerHTML (elements (ui sample_machine)) = "<span>📋</span> Copy"
  /\ exists m',
       run_events [Copy; Written (Return tt); Copy; Written (Return tt); Timer; Timer]
         sample_machine = Some m'
       /\ copyBtn_innerHTML (elements (ui m')) = "<span>✅</span> Copied!"
       /\ timers m' = [].
Proof.
  split; [reflexivity|]. split; [reflexivity|]. split; [reflexivity|].
  exact (@overlapping_copies_leave_the_label_stuck sample_machine eq_refl eq_refl).
Defined.

(** X19 at a concrete input: the clipboard refuses the copy. *)
Lemma failed_copy_changes_nothing_witness :
  step (Written (Throw (Error "denied"))) sample_copying = Some sample_denied
  /\ ui sample_denied = ui sample_copying
  /\ timers sample_denied = timers sample_copying.
Proof.
  assert (Hstep : step (Written (Throw (Error "denied"))) sample_copying = Some sample_denied)
    by (vm_compute; reflexivity).
  split; [exact Hstep|].
  destruct (@failed_copy_changes_nothing sample_copying sample_denied (Error "denied") Hstep)
    as (Hui & Htimers & _).
  split; [exact Hui | exact Htimers].
Defined.
